(** * The LED theme host: render worker, theme switching and frame statistics

    A shallow embedding of [src/LEDService.py] (class [LEDService]) and of
    [src/lib/PerformanceMonitor.py] (method [record_led_frame]).

    Conventions of the embedding.
    - Python [float] seconds are exact rationals ([Q]).
    - [time.time()] is an oracle: the n-th call returns [clock n]; nothing is
      assumed about the readings unless a theorem says so.
    - [time.sleep], the error callback, every call into a theme and every
      call on the pixel strip are appended, in program order, to a [trace].
    - One thread of control is followed at a time.  The fields the threads
      share ([loop], the two events, the switching flags) are ordinary
      fields of the state, so a call made while another thread is half way
      through [setLoop] is a call on a state whose [_isChangingLoop] is set. *)

From Stdlib Require Import QArith Lqa Sorted.
From stdpp Require Import base list strings.

(* ===================================================================== *)
(** * src/lib/PerformanceMonitor.py *)
(* ===================================================================== *)

Module PerformanceMonitor.
Local Open Scope Q_scope.

(** [a < b] on floats, as a boolean. *)
Definition Qltb (a b : Q) : bool := negb (Qle_bool b a).

(** The attributes [record_led_frame] reads or writes. *)
Record t := mk {
  led_fps : Q;
  led_frame_time : Q;
  led_frame_times : list (Q * Q)   (* (timestamp, frame_time), oldest first *)
}.

(** [__init__] *)
Definition init : t :=
  {| led_fps := 0; led_frame_time := 0; led_frame_times := [] |}.

(** [len(xs)] as a float operand. *)
Definition len {A} (xs : list A) : Q := inject_Z (Z.of_nat (length xs)).

(** [sum(ft for _, ft in xs)]: left to right, from 0. *)
Definition sum_ft (xs : list (Q * Q)) : Q :=
  fold_left (fun acc p => acc + snd p) xs 0.

(** [[(t, ft) for t, ft in xs if t > cutoff_time]] *)
Definition recent (cutoff_time : Q) (xs : list (Q * Q)) : list (Q * Q) :=
  List.filter (fun p => Qltb cutoff_time (fst p)) xs.

(** [xs[0][0]] and [xs[-1][0]]; only evaluated on a non-empty list. *)
Definition first_stamp (xs : list (Q * Q)) : Q := fst (List.hd (0, 0) xs).
Definition last_stamp (xs : list (Q * Q)) : Q := fst (List.last xs (0, 0)).

(** [record_led_frame(self, frame_time)]; [current_time] is the reading
    of [time.time()] taken on entry. *)
Definition record_led_frame (current_time frame_time : Q) (self : t) : t :=
  let appended := led_frame_times self ++ [(current_time, frame_time)] in
  let cutoff_time := current_time - 1 in
  let kept := recent cutoff_time appended in
  if (1 <? length kept)%nat then
    let time_span := last_stamp kept - first_stamp kept in
    if Qltb 0 time_span then
      {| led_fps := len kept / time_span;
         led_frame_time := sum_ft kept / len kept;
         led_frame_times := kept |}
    else
      {| led_fps := led_fps self;
         led_frame_time := led_frame_time self;
         led_frame_times := kept |}
  else
    {| led_fps := led_fps self;
       led_frame_time := led_frame_time self;
       led_frame_times := kept |}.


End PerformanceMonitor.

(* ===================================================================== *)
(** * src/LEDService.py *)
(* ===================================================================== *)

Module LEDService.
Local Open Scope Q_scope.
Import PerformanceMonitor (Qltb).

(** ** The pixel strip ([rpi_ws281x.PixelStrip], an external driver) *)

Inductive SinkCall :=
| SetPixelColor (n : nat) (color : Z)
| SetBrightness (brightness : Z)
| Show.

Record PixelStrip := mkStrip {
  pixels : list Z;      (* one packed colour per LED *)
  brightness : Z
}.

(** [ws.Color(red, green, blue)]: the driver packs a colour in 24 bits. *)
Definition Color (red green blue : Z) : Z :=
  Z.lor (Z.lor (Z.shiftl red 16) (Z.shiftl green 8)) blue.

(** The effect of one driver call on the strip.  The driver ignores an
    index past the end of the buffer; [show] transmits the buffer and
    leaves it as it is. *)
Definition apply_sink (c : SinkCall) (p : PixelStrip) : PixelStrip :=
  match c with
  | SetPixelColor n color => mkStrip (<[n := color]> (pixels p)) (brightness p)
  | SetBrightness b => mkStrip (pixels p) b
  | Show => p
  end.

(** ** Exceptions and control *)

Record PyExc := mkExc {
  exc_is_Exception : bool;   (* an instance of [Exception], as opposed to a
                                bare [BaseException] such as [SystemExit] *)
  exc_traceback : string     (* what [traceback.format_exc()] renders *)
}.

Inductive Outcome (A : Type) :=
| Return (a : A)
| Raise (e : PyExc).
Arguments Return {A} a.
Arguments Raise {A} e.

(** Reading an attribute of [None]. *)
Definition AttributeError : PyExc :=
  mkExc true "AttributeError: 'NoneType' object has no attribute".

(** ** Themes ([lib/led/LEDTheme.py], plugins opaque to the service)

    A theme keeps private attributes between calls ([ThemeStore]); it is
    handed the strip and the break event by [passArgs].  A call may
    rewrite the private attributes, issue driver calls, set or clear the
    break event, and either return or raise. *)

Definition ThemeStore := list Z.

Record ThemeIn := mkIn {
  in_store : ThemeStore;
  in_leds : PixelStrip;
  in_break : bool
}.

Record ThemeOut (A : Type) := mkOut {
  out_store : ThemeStore;
  out_sink : list SinkCall;
  out_break : bool;
  out_result : Outcome A
}.
Arguments mkOut {A} _ _ _ _.
Arguments out_store {A} _.
Arguments out_sink {A} _.
Arguments out_break {A} _.
Arguments out_result {A} _.

Record LEDTheme := mkTheme {
  id : string;
  passApp : ThemeIn -> ThemeOut unit;
  passArgs : ThemeIn -> ThemeOut unit;
  runInit : ThemeIn -> ThemeOut unit;
  runLoop : ThemeIn -> ThemeOut (option string)   (* [None] means go on *)
}.

(** A call that touches nothing and returns [a]. *)
Definition quiet {A} (a : A) (i : ThemeIn) : ThemeOut A :=
  mkOut (in_store i) [] (in_break i) (Return a).

(** Modelled from the spec: the registry's null theme, [LEDThemes.null()]
    of [LEDLoops.py], which is not among the sources.  Its id is "null",
    its initialisation does nothing and its step asks to go on. *)
Definition LEDThemes_null : LEDTheme :=
  mkTheme "null" (quiet tt) (quiet tt) (quiet tt) (quiet None).

(** ** The trace of observable actions *)

Inductive Method := m_passApp | m_passArgs | m_runInit | m_runLoop.

Inductive Event :=
| Sleep (seconds : Q)
| ErrorCallback (message : string)
| ThemeCall (theme : string) (m : Method)
| Sink (c : SinkCall).

(** ** The service object and what surrounds it *)

Definition LED_COUNT : nat := 300.

Record State := mkState {
  leds : PixelStrip;
  loop : option LEDTheme;
  _breakLoopEvent : bool;
  _loopChangeEvent : bool;
  _isRunning : bool;
  _isChangingLoop : bool;
  _hasChangeTimedOut : bool;
  (* local to [_ledLoopTarget] *)
  last_frame_time : Q;
  (* module globals *)
  PERFORMANCE_MONITORING : bool;
  _performance_monitor : option PerformanceMonitor.t;
  (* the world *)
  store : ThemeStore;
  clock : nat -> Q;
  ticks : nat;
  trace : list Event
}.

Definition set_leds v s :=
  let 'mkState _ b c d e f g h i j k l m n := s in mkState v b c d e f g h i j k l m n.
Definition set_loop v s :=
  let 'mkState a _ c d e f g h i j k l m n := s in mkState a v c d e f g h i j k l m n.
Definition set_breakLoopEvent v s :=
  let 'mkState a b _ d e f g h i j k l m n := s in mkState a b v d e f g h i j k l m n.
Definition set_loopChangeEvent v s :=
  let 'mkState a b c _ e f g h i j k l m n := s in mkState a b c v e f g h i j k l m n.
Definition set_isRunning v s :=
  let 'mkState a b c d _ f g h i j k l m n := s in mkState a b c d v f g h i j k l m n.
Definition set_isChangingLoop v s :=
  let 'mkState a b c d e _ g h i j k l m n := s in mkState a b c d e v g h i j k l m n.
Definition set_hasChangeTimedOut v s :=
  let 'mkState a b c d e f _ h i j k l m n := s in mkState a b c d e f v h i j k l m n.
Definition set_last_frame_time v s :=
  let 'mkState a b c d e f g _ i j k l m n := s in mkState a b c d e f g v i j k l m n.
Definition set_performance_monitor v s :=
  let 'mkState a b c d e f g h i _ k l m n := s in mkState a b c d e f g h i v k l m n.
Definition set_store v s :=
  let 'mkState a b c d e f g h i j _ l m n := s in mkState a b c d e f g h i j v l m n.
Definition set_ticks v s :=
  let 'mkState a b c d e f g h i j k l _ n := s in mkState a b c d e f g h i j k l v n.
Definition set_trace v s :=
  let 'mkState a b c d e f g h i j k l m _ := s in mkState a b c d e f g h i j k l m v.

Definition log (e : Event) (s : State) : State := set_trace (trace s ++ [e]) s.

(** [time.time()] *)
Definition time (s : State) : Q * State := (clock s (ticks s), set_ticks (S (ticks s)) s).

(** [time.sleep(seconds)] *)
Definition sleep (seconds : Q) (s : State) : State := log (Sleep seconds) s.

(** [self.errorCallback(message)]; the callback installed by [__init__]
    prints the message. *)
Definition errorCallback (message : string) (s : State) : State :=
  log (ErrorCallback message) s.

(** One call on [self.leds]. *)
Definition sink_call (c : SinkCall) (s : State) : State :=
  log (Sink c) (set_leds (apply_sink c (leds s)) s).

(** [self.loop.<method>(...)] *)
Definition invoke {A} (name : Method) (method : LEDTheme -> ThemeIn -> ThemeOut A)
    (s : State) : State * Outcome A :=
  match loop s with
  | None => (s, Raise AttributeError)
  | Some th =>
      let o := method th (mkIn (store s) (leds s) (_breakLoopEvent s)) in
      let s := log (ThemeCall (id th) name) s in
      let s := fold_left (fun s c => sink_call c s) (out_sink o) s in
      (set_breakLoopEvent (out_break o) (set_store (out_store o) s), out_result o)
  end.

(** How a piece of code ends. *)
Inductive Flow :=
| Done (s : State)                    (* ran to its end *)
| Raised (e : PyExc) (s : State)      (* an exception leaves it *)
| StillLooping (s : State).           (* out of fuel inside a [while] *)

(** ** [setLoop(self, loop=None)]

    An instance of [LEDTheme] is a plain object, hence true in a
    condition; the only false argument is [None]. *)

(** The switch itself, from [self._isChangingLoop = True] to the end. *)
Definition switch_to (new : LEDTheme) (s : State) : State :=
  let s := set_isChangingLoop true s in
  let s := set_breakLoopEvent true s in
  let s := set_loopChangeEvent true s in
  let s := sleep (1 # 20) s in
  let s := set_loop (Some new) s in
  let s := if _hasChangeTimedOut s then set_hasChangeTimedOut false s else s in
  set_isChangingLoop false s.

Definition setLoop (arg : option LEDTheme) (s : State) : Flow :=
  if _isChangingLoop s && negb (_hasChangeTimedOut s) then Done s
  else
    let new := match arg with Some th => th | None => LEDThemes_null end in
    match loop s with
    | None => Raised AttributeError s
    | Some cur =>
        if String.eqb (id new) (id cur) && negb (_isChangingLoop s) then Done s
        else Done (switch_to new s)
    end.

(** ** [setBrightness(self, brightness)] for an integer argument *)
Definition setBrightness (brightness : Z) (s : State) : State :=
  sink_call Show (sink_call (SetBrightness (Z.land brightness 255)) s).

(** ** [setSolid(self, r, g, b)] *)
Definition paint (color : Z) (s : State) : State :=
  fold_left (fun s i => sink_call (SetPixelColor i color) s) (seq 0 LED_COUNT) s.

Definition setSolid (r g b : Z) (s : State) : Flow :=
  match setLoop (Some LEDThemes_null) s with
  | Done s => Done (sink_call Show (paint (Color r g b) s))
  | other => other
  end.

(** ** [off(self)] *)
Definition off (s : State) : Flow := setSolid 0 0 0 s.

(** ** [shutdown(self)], up to the join *)
Definition shutdown (s : State) : State :=
  set_loopChangeEvent true (set_breakLoopEvent true (set_isRunning false s)).

(** ** [_ledLoopTarget(self)], the render worker *)

(** [record_led_frame(frame_time)] of [lib/PerformanceMonitor.py], the
    module function: it forwards to the global monitor when there is
    one; the monitor then reads the clock. *)
Definition record_led_frame (frame_time : Q) (s : State) : State :=
  match _performance_monitor s with
  | Some pm =>
      let (current_time, s) := time s in
      set_performance_monitor
        (Some (PerformanceMonitor.record_led_frame current_time frame_time pm)) s
  | None => s
  end.

Definition frame_time_target : Q := 1 / 60.

(** [max(a, b)] of Python: the first argument unless the second is larger. *)
Definition py_max (a b : Q) : Q := if Qltb a b then b else a.

(** How one pass through the body of the inner [while] ends. *)
Inductive FrameEnd :=
| Next (s : State)                  (* fell off the end of the body *)
| Break (s : State)                 (* [break] *)
| Escapes (e : PyExc) (s : State).  (* not caught by [except Exception] *)

(** The body of [while not self._breakLoopEvent.is_set() and ...]. *)
Definition frame (s : State) : FrameEnd :=
  let (frame_start, s) := time s in
  match invoke m_runLoop runLoop s with
  | (s, Return (Some _)) => Break (set_breakLoopEvent true s)
  | (s, Return None) =>
      let (now, s) := time s in
      let frame_elapsed := now - frame_start in
      let s := if PERFORMANCE_MONITORING s then record_led_frame frame_elapsed s else s in
      let sleep_time := py_max 0 (frame_time_target - frame_elapsed) in
      let s := if Qltb 0 sleep_time then sleep sleep_time s else s in
      let (now, s) := time s in
      if Qltb (16 # 1000) (now - last_frame_time s) then
        let s := sleep (1 # 1000) s in
        let (now, s) := time s in
        Next (set_last_frame_time now s)
      else Next s
  | (s, Raise e) =>
      if exc_is_Exception e then
        Break (set_breakLoopEvent true (errorCallback (exc_traceback e) s))
      else Escapes e s
  end.

(** The inner [while]. *)
Fixpoint frames (fuel : nat) (s : State) : Flow :=
  if negb (_breakLoopEvent s) && _isRunning s && negb (_loopChangeEvent s) then
    match fuel with
    | O => StillLooping s
    | S fuel =>
        match frame s with
        | Next s => frames fuel s
        | Break s => Done s
        | Escapes e s => Raised e s
        end
    end
  else Done s.

(** The three calls guarded by [try] at the start of an episode. *)
Definition initialize (s : State) : State * Outcome unit :=
  match invoke m_passApp passApp s with
  | (s, Return _) =>
      match invoke m_passArgs passArgs s with
      | (s, Return _) => invoke m_runInit runInit s
      | failed => failed
      end
  | failed => failed
  end.

(** An episode once initialised: the inner [while], then the two
    [clear()] calls that end the outer body. *)
Definition episode (fuel : nat) (s : State) : Flow :=
  match frames fuel s with
  | Done s => Done (set_loopChangeEvent false (set_breakLoopEvent false s))
  | other => other
  end.

(** [self.loop is None or self.loop.id == "null"] *)
Definition is_idle (l : option LEDTheme) : bool :=
  match l with
  | None => true
  | Some th => String.eqb (id th) "null"
  end.

(** The body of [while self._isRunning]; [Done] is the end of the body or
    a [continue]. *)
Definition iteration (fuel : nat) (s : State) : Flow :=
  if is_idle (loop s) then Done (sleep (1 # 100) s)
  else if _isChangingLoop s then Done (sleep (1 # 100) s)
  else
    match initialize s with
    | (s, Raise e) =>
        if exc_is_Exception e then
          match loop s with
          | None => Raised AttributeError s
          | Some th =>
              let message :=
                "Failed to initialize loop " +:+ id th +:+ ": " +:+ exc_traceback e in
              let s := errorCallback message s in
              let s := sleep (1 # 10) s in
              setLoop (Some LEDThemes_null) s
          end
        else Raised e s
    | (s, Return _) => episode fuel s
    end.

(** The outer [while]; [Done] is the return of the thread's target. *)
Fixpoint run (fuel : nat) (s : State) : Flow :=
  if _isRunning s then
    match fuel with
    | O => StillLooping s
    | S fuel =>
        match iteration fuel s with
        | Done s => run fuel s
        | other => other
        end
    end
  else Done s.

(** The scheduling hints at the top of the function ([os.nice],
    [os.sched_setaffinity]) swallow their own errors and touch nothing
    that is modelled. *)
Definition _ledLoopTarget (fuel : nat) (s : State) : Flow :=
  let (now, s) := time s in
  run fuel (set_last_frame_time now s).

(** ** [__init__(self, appRoot)]: the service as constructed, given the
    world it is constructed in.  The strip has [LED_COUNT] dark pixels and
    full brightness; the current theme is the null theme. *)
Definition init (world_clock : nat -> Q) : State :=
  {| leds := mkStrip (replicate LED_COUNT 0%Z) 255;
     loop := Some LEDThemes_null;
     _breakLoopEvent := false;
     _loopChangeEvent := false;
     _isRunning := true;
     _isChangingLoop := false;
     _hasChangeTimedOut := false;
     last_frame_time := 0;
     PERFORMANCE_MONITORING := true;
     _performance_monitor := None;
     store := [];
     clock := world_clock;
     ticks := 0;
     trace := [] |}.

End LEDService.

(* ===================================================================== *)
(** * Themes and states used to exercise the model *)
(* ===================================================================== *)

Module Fixtures.
Import LEDService.
Local Open Scope Q_scope.

(** Lights the first pixel red on every step and never asks to stop. *)
Definition steady : LEDTheme :=
  mkTheme "steady" (quiet tt) (quiet tt) (quiet tt)
    (fun i => mkOut (in_store i) [SetPixelColor 0 (Color 255 0 0); Show]
                    (in_break i) (Return None)).

Definition ZeroDivisionError : PyExc :=
  mkExc true "ZeroDivisionError: division by zero".

(** Initialises, then fails on every step. *)
Definition crashing : LEDTheme :=
  mkTheme "crashing" (quiet tt) (quiet tt) (quiet tt)
    (fun i => mkOut (in_store i) [] (in_break i) (Raise ZeroDivisionError)).


(** Returns a value from its first step. *)
Definition finishing : LEDTheme :=
  mkTheme "finishing" (quiet tt) (quiet tt) (quiet tt) (quiet (Some "done")).

Definition SystemExit : PyExc := mkExc false "SystemExit".

(** Leaves the interpreter from its step. *)
Definition exiting : LEDTheme :=
  mkTheme "exiting" (quiet tt) (quiet tt) (quiet tt)
    (fun i => mkOut (in_store i) [] (in_break i) (Raise SystemExit)).

(** Leaves the interpreter from [runInit]. *)
Definition exiting_init : LEDTheme :=
  mkTheme "exiting_init" (quiet tt) (quiet tt)
    (fun i => mkOut (in_store i) [] (in_break i) (Raise SystemExit))
    (quiet None).

(** A clock that advances 20 ms between two readings. *)
Definition slow_clock (n : nat) : Q := inject_Z (Z.of_nat n) * (20 # 1000).

(** A clock that advances 1 ms between two readings. *)
Definition fast_clock (n : nat) : Q := inject_Z (Z.of_nat n) * (1 # 1000).

(** The service right after construction. *)
Definition fresh : State := init slow_clock.

(** The service with [th] installed by a completed switch. *)
Definition playing (th : LEDTheme) (world_clock : nat -> Q) : State :=
  set_loop (Some th) (init world_clock).

(** The service seen by a second caller while a switch away from
    [steady] is sleeping through its grace period. *)
Definition mid_switch : State :=
  set_loopChangeEvent true
    (set_breakLoopEvent true (set_isChangingLoop true (playing steady slow_clock))).

End Fixtures.

(* ===================================================================== *)
(** * The words of the specification, where they are compared with the code *)
(* ===================================================================== *)

Module Spec.

(** "clamps to the valid 0-255 range" *)
Definition clamp_0_255 (v : Z) : Z := Z.max 0 (Z.min 255 v).

(** The messages handed to the error callback, oldest first. *)
Definition error_reports (tr : list LEDService.Event) : list string :=
  omap (fun ev => match ev with LEDService.ErrorCallback m => Some m | _ => None end) tr.

(** The durations passed to [time.sleep], oldest first. *)
Definition sleeps_of (tr : list LEDService.Event) : list Q :=
  omap (fun ev => match ev with LEDService.Sleep d => Some d | _ => None end) tr.

End Spec.

(* ===================================================================== *)
(** * What is observed of a run *)
(* ===================================================================== *)

Module Observe.
Import LEDService.

(** The theme methods called, oldest first. *)
Definition theme_calls (tr : list Event) : list (string * Method) :=
  omap (fun ev => match ev with ThemeCall th m => Some (th, m) | _ => None end) tr.

(** The driver calls issued, oldest first. *)
Definition sink_calls (tr : list Event) : list SinkCall :=
  omap (fun ev => match ev with Sink c => Some c | _ => None end) tr.

(** The state a piece of code ends in, however it ends. *)
Definition state_of (f : Flow) : State :=
  match f with
  | Done s => s
  | Raised _ s => s
  | StillLooping s => s
  end.

(** The theme an argument of [setLoop] stands for. *)
Definition requested (arg : option LEDTheme) : LEDTheme :=
  match arg with
  | Some th => th
  | None => LEDThemes_null
  end.

End Observe.

(* ===================================================================== *)
(** * Theorems *)
(* ===================================================================== *)

Import LEDService.

(** ** Switching themes: [setLoop] *)

Section Switching.

(** C3.  While a switch is in progress and has not timed out, [setLoop]
    returns at once whatever its argument: the current theme, both
    events, the switching flags and everything else are as before. *)
Theorem setLoop_ignored_during_switch (arg : option LEDTheme) (s : State) :
  _isChangingLoop s = true ->
  _hasChangeTimedOut s = false ->
  setLoop arg s = Done s.
Proof.
  intros Hbusy Hfresh. unfold setLoop. now rewrite Hbusy, Hfresh.
Qed.

Lemma setLoop_ignored_during_switch_witness :
  setLoop (Some Fixtures.crashing) Fixtures.mid_switch = Done Fixtures.mid_switch.
Proof.
  apply (setLoop_ignored_during_switch (Some Fixtures.crashing) Fixtures.mid_switch);
    reflexivity.
Defined.

(** The four ways through [setLoop]: ignored, failing on a missing
    current theme, the same id again, and the switch. *)
Lemma setLoop_cases (arg : option LEDTheme) (s : State) :
  let new := match arg with Some th => th | None => LEDThemes_null end in
  (_isChangingLoop s = true /\ _hasChangeTimedOut s = false /\ setLoop arg s = Done s)
  \/ (loop s = None /\ setLoop arg s = Raised AttributeError s)
  \/ (exists cur, loop s = Some cur /\ id new = id cur /\ _isChangingLoop s = false
                  /\ setLoop arg s = Done s)
  \/ (exists cur, loop s = Some cur
                  /\ (id new <> id cur \/ (_isChangingLoop s = true /\ _hasChangeTimedOut s = true))
                  /\ setLoop arg s = Done (switch_to new s)).
Proof.
  intros new. unfold setLoop. fold new.
  destruct (_isChangingLoop s) eqn:Hc, (_hasChangeTimedOut s) eqn:Ht; simpl;
    try (left; now auto);
    (destruct (loop s) as [cur|] eqn:Hl; [|right; left; now auto]).
  - right; right; right. exists cur. rewrite andb_false_r. now auto.
  - rewrite andb_true_r.
    destruct (String.eqb_spec (id new) (id cur)) as [He|He].
    + right; right; left. exists cur. now auto.
    + right; right; right. exists cur. now auto.
  - rewrite andb_true_r.
    destruct (String.eqb_spec (id new) (id cur)) as [He|He].
    + right; right; left. exists cur. now auto.
    + right; right; right. exists cur. now auto.
Qed.

(** The fields after a switch. *)
Lemma switch_to_fields (new : LEDTheme) (s : State) :
  loop (switch_to new s) = Some new
  /\ _isChangingLoop (switch_to new s) = false
  /\ _hasChangeTimedOut (switch_to new s) = false
  /\ _breakLoopEvent (switch_to new s) = true
  /\ _loopChangeEvent (switch_to new s) = true
  /\ _isRunning (switch_to new s) = _isRunning s
  /\ leds (switch_to new s) = leds s
  /\ trace (switch_to new s) = trace s ++ [Sleep (1 # 20)].
Proof. destruct s as [? ? ? ? ? ? [] ? ? ? ? ? ? ?]; repeat split. Qed.

(** C4.  With no switch in progress, [setLoop] with a theme whose id is
    the current theme's id returns the state it was given: no field
    changes, no event is raised, nothing is slept, so the worker is given
    no reason to initialise again.  Hence repeating a [setLoop] that has
    returned changes nothing. *)
Theorem setLoop_same_id_noop (T cur : LEDTheme) (s : State) :
  loop s = Some cur ->
  id T = id cur ->
  _isChangingLoop s = false ->
  setLoop (Some T) s = Done s
  /\ forall s0 s1, setLoop (Some T) s0 = Done s1 -> setLoop (Some T) s1 = Done s1.
Proof.
  intros Hcur Hid Hquiet. split.
  - unfold setLoop. rewrite Hquiet, Hcur. simpl.
    apply String.eqb_eq in Hid. now rewrite Hid.
  - intros s0 s1 Hfirst.
    destruct (setLoop_cases (Some T) s0) as
      [(_ & _ & H) | [(_ & H) | [(c & _ & _ & _ & H) | (c & _ & _ & H)]]];
      rewrite H in Hfirst; try discriminate;
      injection Hfirst as <-; try exact H.
    destruct (switch_to_fields T s0) as (Hl & Hc & _).
    unfold setLoop. rewrite Hc, Hl. simpl. now rewrite String.eqb_refl.
Qed.

Lemma setLoop_same_id_noop_witness :
  let s := Fixtures.playing Fixtures.steady Fixtures.slow_clock in
  setLoop (Some Fixtures.steady) s = Done s.
Proof.
  intros s.
  apply (setLoop_same_id_noop Fixtures.steady Fixtures.steady s); reflexivity.
Defined.

(** C10.  [setLoop()] and [setLoop(None)], when not ignored and with a
    current theme to compare with, return with a theme of id "null"
    current: the registry's null theme if a switch was made, the theme
    that was current if its id was "null" already.  And no call of
    [setLoop] that returns leaves the current theme absent unless it was
    absent before and the call was ignored. *)
Theorem setLoop_None_gives_null (s : State) (cur : LEDTheme) :
  loop s = Some cur ->
  _isChangingLoop s = false \/ _hasChangeTimedOut s = true ->
  (exists s', setLoop None s = Done s'
              /\ (loop s' = Some LEDThemes_null \/ (s' = s /\ id cur = "null"))
              /\ exists th, loop s' = Some th /\ id th = "null")
  /\ forall arg s0 s1, setLoop arg s0 = Done s1 -> loop s1 = None -> s1 = s0.
Proof.
  intros Hcur Hopen. split.
  - destruct (setLoop_cases None s) as
      [(Hc & Ht & _) | [(Hl & _) | [(c & Hl & Hid & _ & H) | (c & _ & _ & H)]]].
    + destruct Hopen; congruence.
    + congruence.
    + exists s. rewrite Hcur in Hl. injection Hl as <-.
      split; [exact H|]. split; [right; now auto|]. exists cur. now auto.
    + exists (switch_to LEDThemes_null s).
      destruct (switch_to_fields LEDThemes_null s) as (Hl & _).
      split; [exact H|]. split; [now left|]. exists LEDThemes_null. now auto.
  - intros arg s0 s1 Hcall Hnone.
    destruct (setLoop_cases arg s0) as
      [(_ & _ & H) | [(_ & H) | [(c & _ & _ & _ & H) | (c & _ & _ & H)]]];
      rewrite H in Hcall; try discriminate; injection Hcall as <-; try reflexivity.
    destruct (switch_to_fields (match arg with Some th => th | None => LEDThemes_null end) s0)
      as (Hl & _).
    congruence.
Qed.

Lemma setLoop_None_gives_null_witness :
  exists s', setLoop None (Fixtures.playing Fixtures.steady Fixtures.slow_clock) = Done s'
             /\ loop s' = Some LEDThemes_null.
Proof.
  destruct (setLoop_None_gives_null
              (Fixtures.playing Fixtures.steady Fixtures.slow_clock) Fixtures.steady)
    as [(s' & Hcall & [Hnull | (_ & Hid)] & _) _].
  - reflexivity.
  - left. reflexivity.
  - exists s'. now split.
  - discriminate Hid.
Defined.

End Switching.

(** ** Direct output: [setBrightness], [setSolid], [off] *)

Section DirectOutput.

(** A driver call on the service changes the strip and the trace only. *)
Lemma sink_call_fields (c : SinkCall) (s : State) :
  leds (sink_call c s) = apply_sink c (leds s)
  /\ trace (sink_call c s) = trace s ++ [Sink c]
  /\ loop (sink_call c s) = loop s
  /\ _breakLoopEvent (sink_call c s) = _breakLoopEvent s
  /\ _loopChangeEvent (sink_call c s) = _loopChangeEvent s
  /\ _isRunning (sink_call c s) = _isRunning s
  /\ _isChangingLoop (sink_call c s) = _isChangingLoop s
  /\ _hasChangeTimedOut (sink_call c s) = _hasChangeTimedOut s.
Proof. destruct s; repeat split. Qed.

(** [v & 0xFF] keeps the low eight bits of [v]. *)
Lemma mask_low_byte (v : Z) : Z.land v 255 = (v mod 256)%Z.
Proof. change 255%Z with (Z.ones 8). now rewrite Z.land_ones. Qed.

(** The brightness 256 wraps to 0 and -1 wraps to 255, where clamping
    gives 255 and 0. *)
Lemma setBrightness_wraps_out_of_range :
  brightness (leds (setBrightness 256 Fixtures.fresh)) = 0%Z
  /\ Spec.clamp_0_255 256 = 255%Z
  /\ brightness (leds (setBrightness (-1) Fixtures.fresh)) = 255%Z
  /\ Spec.clamp_0_255 (-1) = 0%Z.
Proof. repeat split. Qed.

(** C9, as the code has it.  [setBrightness(v)] sets the brightness of
    the strip to the low eight bits of [v], that is [v mod 256], a value
    in 0..255, and then flushes; pixels, current theme, events and flags
    are not consulted and not changed. *)
Theorem setBrightness_masks (v : Z) (s : State) :
  brightness (leds (setBrightness v s)) = (v mod 256)%Z
  /\ (0 <= brightness (leds (setBrightness v s)) <= 255)%Z
  /\ trace (setBrightness v s)
     = trace s ++ [Sink (SetBrightness (v mod 256)); Sink Show]
  /\ pixels (leds (setBrightness v s)) = pixels (leds s)
  /\ loop (setBrightness v s) = loop s
  /\ _isChangingLoop (setBrightness v s) = _isChangingLoop s
  /\ _breakLoopEvent (setBrightness v s) = _breakLoopEvent s
  /\ _loopChangeEvent (setBrightness v s) = _loopChangeEvent s.
Proof.
  unfold setBrightness. rewrite mask_low_byte.
  destruct s as [[px br] ? ? ? ? ? ? ? ? ? ? ? ? ?]; simpl.
  rewrite <- app_assoc. simpl.
  pose proof (Z.mod_pos_bound v 256 eq_refl) as Hb.
  repeat split; lia.
Qed.

(** Inside the range the mask is the identity, as clamping is. *)
Lemma setBrightness_in_range (v : Z) (s : State) :
  (0 <= v <= 255)%Z ->
  brightness (leds (setBrightness v s)) = v
  /\ brightness (leds (setBrightness v s)) = Spec.clamp_0_255 v.
Proof.
  intros Hv. unfold setBrightness.
  destruct (sink_call_fields Show (sink_call (SetBrightness (Z.land v 255)) s)) as (-> & _).
  destruct (sink_call_fields (SetBrightness (Z.land v 255)) s) as (-> & _).
  cbn [apply_sink brightness]. rewrite mask_low_byte, Z.mod_small by lia.
  unfold Spec.clamp_0_255. lia.
Qed.

(** Writing [color] at the indices of [todo], in order. *)
Lemma paint_indices (color : Z) (todo : list nat) (s : State) :
  let s' := fold_left (fun s i => sink_call (SetPixelColor i color) s) todo s in
  trace s' = trace s ++ map (fun i => Sink (SetPixelColor i color)) todo
  /\ pixels (leds s') = fold_left (fun px i => <[i := color]> px) todo (pixels (leds s))
  /\ brightness (leds s') = brightness (leds s)
  /\ loop s' = loop s
  /\ _isChangingLoop s' = _isChangingLoop s.
Proof.
  revert s. induction todo as [|i todo IH]; intros s; simpl.
  - rewrite app_nil_r. now auto.
  - destruct (IH (sink_call (SetPixelColor i color) s)) as (Ht & Hp & Hb & Hl & Hc).
    destruct (sink_call_fields (SetPixelColor i color) s)
      as (El & Et & Elo & _ & _ & _ & Ec & _).
    rewrite Ht, Hp, Hb, Hl, Hc, El, Et, Elo, Ec. simpl.
    rewrite <- app_assoc. now auto.
Qed.

(** Overwriting the cells [k], [k+1], ..., [k+n-1] of a buffer whose
    first [k] cells already hold [color]. *)
Lemma overwrite_run (color : Z) (n : nat) :
  forall (k : nat) (rest : list Z),
    (n <= length rest)%nat ->
    fold_left (fun px i => <[i := color]> px) (seq k n) (replicate k color ++ rest)
    = replicate (k + n) color ++ drop n rest.
Proof.
  induction n as [|n IH]; intros k rest Hlen; simpl.
  - now rewrite Nat.add_0_r, drop_0.
  - destruct rest as [|x rest]; simpl in Hlen; [lia|].
    rewrite insert_app_r_alt by (rewrite length_replicate; lia).
    rewrite length_replicate, Nat.sub_diag. simpl.
    rewrite (cons_middle color), app_assoc, <- replicate_S_end.
    rewrite IH by lia. now rewrite <- Nat.add_succ_comm.
Qed.

Lemma paint_fields (color : Z) (s : State) :
  trace (paint color s)
  = trace s ++ map (fun i => Sink (SetPixelColor i color)) (seq 0 LED_COUNT)
  /\ (length (pixels (leds s)) = LED_COUNT ->
      pixels (leds (paint color s)) = replicate LED_COUNT color)
  /\ brightness (leds (paint color s)) = brightness (leds s)
  /\ loop (paint color s) = loop s
  /\ _isChangingLoop (paint color s) = _isChangingLoop s.
Proof.
  destruct (paint_indices color (seq 0 LED_COUNT) s) as (Ht & Hp & Hb & Hl & Hc).
  repeat split; try assumption.
  intros Hlen. unfold paint. rewrite Hp.
  pose proof (overwrite_run color LED_COUNT 0 (pixels (leds s))) as Hrun.
  change (replicate 0 color ++ pixels (leds s)) with (pixels (leds s)) in Hrun.
  rewrite Hrun by (rewrite Hlen; reflexivity).
  rewrite <- Hlen at 2. rewrite drop_all. now rewrite app_nil_r.
Qed.

(** [off()] called while another caller's switch away from "steady" is in
    its grace period: the pixels are all written dark and flushed, and the
    current theme is still "steady". *)
Lemma off_during_switch_keeps_theme :
  exists s', off Fixtures.mid_switch = Done s'
             /\ pixels (leds s') = replicate LED_COUNT 0%Z
             /\ loop s' = Some Fixtures.steady
             /\ id Fixtures.steady <> "null".
Proof.
  exists (sink_call Show (paint (Color 0 0 0) Fixtures.mid_switch)).
  split; [vm_compute; reflexivity|].
  split; [vm_compute; reflexivity|].
  split; [reflexivity|].
  intros Hid. vm_compute in Hid. discriminate Hid.
Qed.

(** C5, as the code has it.  Called with a current theme in place and no
    unexpired switch in progress, [setSolid(r, g, b)] first goes through
    [setLoop] with the null theme, after which a theme of id "null" is
    current; it then writes [Color(r, g, b)] to the pixels 0, 1, ...,
    [LED_COUNT - 1] in this order and flushes once, so that a strip of
    [LED_COUNT] pixels holds that colour everywhere.  [off()] is
    [setSolid(0, 0, 0)], and [Color(0, 0, 0)] is 0. *)
Theorem setSolid_switches_then_paints (r g b : Z) (s : State) (cur : LEDTheme) :
  loop s = Some cur ->
  _isChangingLoop s = false \/ _hasChangeTimedOut s = true ->
  length (pixels (leds s)) = LED_COUNT ->
  exists s1 s',
    setLoop (Some LEDThemes_null) s = Done s1
    /\ setSolid r g b s = Done s'
    /\ (exists th, loop s' = Some th /\ id th = "null")
    /\ trace s'
       = trace s1
         ++ map (fun i => Sink (SetPixelColor i (Color r g b))) (seq 0 LED_COUNT)
         ++ [Sink Show]
    /\ pixels (leds s') = replicate LED_COUNT (Color r g b)
    /\ off s = setSolid 0 0 0 s
    /\ Color 0 0 0 = 0%Z.
Proof.
  intros Hcur Hopen Hlen.
  assert (Hswitch : exists s1, setLoop (Some LEDThemes_null) s = Done s1
                               /\ leds s1 = leds s
                               /\ exists th, loop s1 = Some th /\ id th = "null").
  { destruct (setLoop_cases (Some LEDThemes_null) s) as
      [(Hc & Ht & _) | [(Hl & _) | [(c & Hl & Hid & _ & H) | (c & _ & _ & H)]]].
    - destruct Hopen; congruence.
    - congruence.
    - exists s. repeat split; [exact H|]. exists c. now auto.
    - exists (switch_to LEDThemes_null s).
      destruct (switch_to_fields LEDThemes_null s) as (Hl & _ & _ & _ & _ & _ & Hleds & _).
      repeat split; [exact H|exact Hleds|]. exists LEDThemes_null. now auto. }
  destruct Hswitch as (s1 & Hcall & Hleds & th & Hth & Hid).
  exists s1, (sink_call Show (paint (Color r g b) s1)).
  destruct (sink_call_fields Show (paint (Color r g b) s1)) as (El & Et & Elo & _).
  destruct (paint_fields (Color r g b) s1) as (Pt & Pp & _ & Pl & _).
  split; [exact Hcall|].
  split; [unfold setSolid; now rewrite Hcall|].
  split; [exists th; split; [congruence|exact Hid]|].
  split; [rewrite Et, Pt; now rewrite <- app_assoc|].
  split; [rewrite El; cbn [apply_sink]; apply Pp; congruence|].
  split; reflexivity.
Qed.

Lemma setSolid_switches_then_paints_witness :
  exists s1 s',
    setLoop (Some LEDThemes_null) (Fixtures.playing Fixtures.steady Fixtures.slow_clock)
    = Done s1
    /\ off (Fixtures.playing Fixtures.steady Fixtures.slow_clock) = Done s'
    /\ loop s' = Some LEDThemes_null
    /\ pixels (leds s') = replicate LED_COUNT 0%Z.
Proof.
  destruct (setSolid_switches_then_paints 0 0 0
              (Fixtures.playing Fixtures.steady Fixtures.slow_clock) Fixtures.steady)
    as (s1 & s' & Hcall & Hsolid & _ & Htrace & Hpx & _).
  - reflexivity.
  - left. reflexivity.
  - reflexivity.
  - exists s1, s'. split; [exact Hcall|]. split; [exact Hsolid|].
    split; [|exact Hpx].
    vm_compute in Hsolid. injection Hsolid as <-. reflexivity.
Defined.

End DirectOutput.

(** ** The render worker *)

Section Worker.

Lemma sleep_fields (d : Q) (s : State) :
  leds (sleep d s) = leds s
  /\ trace (sleep d s) = trace s ++ [Sleep d]
  /\ loop (sleep d s) = loop s
  /\ store (sleep d s) = store s
  /\ _isRunning (sleep d s) = _isRunning s
  /\ _isChangingLoop (sleep d s) = _isChangingLoop s.
Proof. destruct s; repeat split. Qed.

Lemma is_idle_spec (l : option LEDTheme) :
  is_idle l = true <-> l = None \/ exists th, l = Some th /\ id th = "null".
Proof.
  destruct l as [th|]; simpl.
  - rewrite String.eqb_eq. split.
    + intros H. right. exists th. now auto.
    + intros [H | (th' & H & Hid)]; congruence.
  - split; auto.
Qed.

(** With an idle theme current and nobody else acting, the worker goes
    round its outer loop sleeping 10 ms each time. *)
Lemma idle_run (n : nat) :
  forall s, is_idle (loop s) = true -> _isRunning s = true ->
  exists s', run n s = StillLooping s'
             /\ leds s' = leds s
             /\ store s' = store s
             /\ loop s' = loop s
             /\ trace s' = trace s ++ replicate n (Sleep (1 # 100)).
Proof.
  induction n as [|n IH]; intros s Hidle Hrun; simpl; rewrite Hrun.
  - exists s. rewrite app_nil_r. now auto.
  - unfold iteration. rewrite Hidle.
    destruct (sleep_fields (1 # 100) s) as (El & Et & Elo & Es & Er & _).
    destruct (IH (sleep (1 # 100) s)) as (s' & Hs' & Hl & Hst & Hlo & Ht).
    + now rewrite Elo.
    + now rewrite Er.
    + exists s'. rewrite Hs', Hl, Hst, Hlo, Ht, El, Es, Elo, Et.
      rewrite <- app_assoc. now auto.
Qed.

(** C6.  When the worker finds the current theme absent or of id "null",
    the pass through its loop body consists of one 10 ms sleep: no theme
    method is called and no driver call is issued (the trace grows by the
    sleep alone; strip and theme attributes are as before), and the worker
    tests its loop condition again.  So for as long as such a theme stays
    current, however many passes are made, the strip is not touched. *)
Theorem idle_iteration_only_sleeps (fuel : nat) (s : State) :
  loop s = None \/ (exists th, loop s = Some th /\ id th = "null") ->
  iteration fuel s = Done (sleep (1 # 100) s)
  /\ trace (sleep (1 # 100) s) = trace s ++ [Sleep (1 # 100)]
  /\ leds (sleep (1 # 100) s) = leds s
  /\ store (sleep (1 # 100) s) = store s
  /\ loop (sleep (1 # 100) s) = loop s
  /\ forall n, _isRunning s = true ->
       exists s', run n s = StillLooping s'
                  /\ leds s' = leds s
                  /\ trace s' = trace s ++ replicate n (Sleep (1 # 100)).
Proof.
  intros Hidle. apply is_idle_spec in Hidle.
  destruct (sleep_fields (1 # 100) s) as (El & Et & Elo & Es & _).
  split; [unfold iteration; now rewrite Hidle|].
  repeat split; try assumption.
  intros n Hrun.
  destruct (idle_run n s Hidle Hrun) as (s' & Hs' & Hl & _ & _ & Ht).
  exists s'. now auto.
Qed.

Lemma idle_iteration_only_sleeps_witness :
  iteration 5 Fixtures.fresh = Done (sleep (1 # 100) Fixtures.fresh).
Proof.
  apply (idle_iteration_only_sleeps 5 Fixtures.fresh).
  right. exists LEDThemes_null. split; reflexivity.
Defined.

(** What the observers of a trace make of its parts. *)
Lemma error_reports_app (a b : list Event) :
  Spec.error_reports (a ++ b) = Spec.error_reports a ++ Spec.error_reports b.
Proof. apply omap_app. Qed.

Lemma error_reports_sinks (cs : list SinkCall) : Spec.error_reports (map Sink cs) = [].
Proof. induction cs as [|c cs IH]; [reflexivity | exact IH]. Qed.

Lemma sleeps_of_app (a b : list Event) :
  Spec.sleeps_of (a ++ b) = Spec.sleeps_of a ++ Spec.sleeps_of b.
Proof. apply omap_app. Qed.

Lemma sleeps_of_sinks (cs : list SinkCall) : Spec.sleeps_of (map Sink cs) = [].
Proof. induction cs as [|c cs IH]; [reflexivity | exact IH]. Qed.

(** A run of driver calls, in closed form. *)
Lemma sink_calls_fold (cs : list SinkCall) :
  forall s,
    fold_left (fun s c => sink_call c s) cs s
    = set_trace (trace s ++ map Sink cs)
        (set_leds (fold_left (fun p c => apply_sink c p) cs (leds s)) s).
Proof.
  induction cs as [|c cs IH]; intros s; simpl.
  - destruct s; simpl. now rewrite app_nil_r.
  - rewrite IH. destruct s; simpl. now rewrite <- app_assoc.
Qed.

(** A call into the current theme, in closed form. *)
Lemma invoke_current {A} (name : Method) (method : LEDTheme -> ThemeIn -> ThemeOut A)
    (s : State) (th : LEDTheme) :
  loop s = Some th ->
  let o := method th (mkIn (store s) (leds s) (_breakLoopEvent s)) in
  invoke name method s
  = (set_breakLoopEvent (out_break o)
       (set_store (out_store o)
          (set_trace (trace s ++ ThemeCall (id th) name :: map Sink (out_sink o))
             (set_leds (fold_left (fun p c => apply_sink c p) (out_sink o) (leds s)) s))),
     out_result o).
Proof.
  intros Hth o. unfold invoke. rewrite Hth. fold o. rewrite sink_calls_fold.
  destruct s; simpl. now rewrite <- app_assoc.
Qed.



(** While the step returns [None] the inner loop simply goes round: what
    the worker does from a later frame on is what it does from the test of
    the inner loop in the state that frame starts in. *)
Lemma episode_next_frame (fuel : nat) (s s1 : State) :
  _breakLoopEvent s = false ->
  _isRunning s = true ->
  _loopChangeEvent s = false ->
  frame s = Next s1 ->
  episode (S fuel) s = episode fuel s1.
Proof.
  intros Hb Hr Hc Hf. unfold episode. cbn [frames].
  now rewrite Hb, Hr, Hc, Hf.
Qed.

(** A call into the theme leaves alone what the service keeps to itself
    and reports nothing to the error callback. *)
Lemma invoke_keeps {A} (name : Method) (method : LEDTheme -> ThemeIn -> ThemeOut A)
    (s : State) :
  let s1 := fst (invoke name method s) in
  loop s1 = loop s
  /\ _isChangingLoop s1 = _isChangingLoop s
  /\ _hasChangeTimedOut s1 = _hasChangeTimedOut s
  /\ _isRunning s1 = _isRunning s
  /\ Spec.error_reports (trace s1) = Spec.error_reports (trace s)
  /\ Spec.sleeps_of (trace s1) = Spec.sleeps_of (trace s).
Proof.
  destruct (loop s) as [th|] eqn:Hth.
  - rewrite (invoke_current name method s th Hth).
    destruct s; simpl in *.
    rewrite error_reports_app, sleeps_of_app. simpl.
    rewrite error_reports_sinks, sleeps_of_sinks, !app_nil_r. now auto.
  - unfold invoke. rewrite Hth. simpl. now auto.
Qed.

Lemma initialize_keeps (s : State) :
  let s1 := fst (initialize s) in
  loop s1 = loop s
  /\ _isChangingLoop s1 = _isChangingLoop s
  /\ _hasChangeTimedOut s1 = _hasChangeTimedOut s
  /\ _isRunning s1 = _isRunning s
  /\ Spec.error_reports (trace s1) = Spec.error_reports (trace s)
  /\ Spec.sleeps_of (trace s1) = Spec.sleeps_of (trace s).
Proof.
  unfold initialize.
  pose proof (invoke_keeps m_passApp passApp s) as Ha.
  destruct (invoke m_passApp passApp s) as [sa [[]|ea]]; simpl in Ha; [|exact Ha].
  pose proof (invoke_keeps m_passArgs passArgs sa) as Hb.
  destruct (invoke m_passArgs passArgs sa) as [sb [[]|eb]]; simpl in Hb.
  - pose proof (invoke_keeps m_runInit runInit sb) as Hc. simpl in Hc.
    destruct Ha as (? & ? & ? & ? & ? & ?), Hb as (? & ? & ? & ? & ? & ?),
             Hc as (? & ? & ? & ? & ? & ?).
    repeat split; congruence.
  - simpl.
    destruct Ha as (? & ? & ? & ? & ? & ?), Hb as (? & ? & ? & ? & ? & ?).
    repeat split; congruence.
Qed.



Lemma Qltb_lt (a b : Q) : PerformanceMonitor.Qltb a b = true <-> (a < b)%Q.
Proof.
  unfold PerformanceMonitor.Qltb. rewrite negb_true_iff, <- not_true_iff_false, Qle_bool_iff.
  split; [apply Qnot_le_lt | apply Qlt_not_le].
Qed.

Lemma Qltb_ge (a b : Q) : PerformanceMonitor.Qltb a b = false <-> (b <= a)%Q.
Proof.
  unfold PerformanceMonitor.Qltb. rewrite negb_false_iff. apply Qle_bool_iff.
Qed.



End Worker.


(** ** Frame statistics: [record_led_frame] *)

Section Statistics.
Import PerformanceMonitor.
Local Open Scope Q_scope.


(** Summing from the left, as [sum] does, or from the right. *)
Lemma sum_ft_from (xs : list (Q * Q)) :
  forall acc,
    fold_left (fun acc p => acc + snd p) xs acc
    == acc + fold_right Qplus 0 (List.map snd xs).
Proof.
  induction xs as [|x xs IH]; intros acc; simpl.
  - lra.
  - rewrite IH. lra.
Qed.

(** The sample just appended is always kept, and is the last one. *)
Lemma recent_appended (current_time frame_time : Q) (xs : list (Q * Q)) :
  recent (current_time - 1) (xs ++ [(current_time, frame_time)])
  = recent (current_time - 1) xs ++ [(current_time, frame_time)].
Proof.
  unfold recent. rewrite List.filter_app. simpl.
  assert (Hkeep : Qltb (current_time - 1) current_time = true) by (apply Qltb_lt; lra).
  now rewrite Hkeep.
Qed.



End Statistics.

(** ** More on switching *)

Section SwitchingMore.
Import Observe.

Lemma switch_to_trace_kinds (new : LEDTheme) (s : State) :
  store (switch_to new s) = store s
  /\ _performance_monitor (switch_to new s) = _performance_monitor s
  /\ ticks (switch_to new s) = ticks s
  /\ last_frame_time (switch_to new s) = last_frame_time s
  /\ sink_calls (trace (switch_to new s)) = sink_calls (trace s)
  /\ theme_calls (trace (switch_to new s)) = theme_calls (trace s)
  /\ Spec.error_reports (trace (switch_to new s)) = Spec.error_reports (trace s).
Proof.
  destruct s as [? ? ? ? ? ? [] ? ? ? ? ? ? tr]; simpl;
    unfold sink_calls, theme_calls, Spec.error_reports;
    rewrite !omap_app; simpl; rewrite !app_nil_r; repeat split.
Qed.

(** [setLoop], however it ends, leaves the strip, the theme attributes,
    the running flag, the monitor and the clock alone; it issues no driver
    call, calls no theme method and reports no error. *)
Theorem setLoop_touches_no_output (arg : option LEDTheme) (s : State) :
  let s' := state_of (setLoop arg s) in
  leds s' = leds s
  /\ store s' = store s
  /\ _isRunning s' = _isRunning s
  /\ _performance_monitor s' = _performance_monitor s
  /\ ticks s' = ticks s
  /\ sink_calls (trace s') = sink_calls (trace s)
  /\ theme_calls (trace s') = theme_calls (trace s)
  /\ Spec.error_reports (trace s') = Spec.error_reports (trace s).
Proof.
  destruct (setLoop_cases arg s) as
    [(_ & _ & H) | [(_ & H) | [(c & _ & _ & _ & H) | (c & _ & _ & H)]]];
    rewrite H; simpl; try (repeat split; reflexivity).
  destruct (switch_to_fields (match arg with Some th => th | None => LEDThemes_null end) s)
    as (_ & _ & _ & _ & _ & Hr & Hl & _).
  destruct (switch_to_trace_kinds (match arg with Some th => th | None => LEDThemes_null end) s)
    as (Hs & Hm & Ht & _ & Hk & Hc & He).
  repeat split; assumption.
Qed.



(** A switch to a theme of another id, with none in progress: the theme is
    installed, both events are left set for the worker, both switching
    flags are clear, and the caller has slept the 50 ms grace period once,
    events being raised before the sleep and the theme assigned after. *)
Theorem setLoop_switch_effect (arg : option LEDTheme) (s : State) (cur : LEDTheme) :
  loop s = Some cur ->
  id (requested arg) <> id cur ->
  _isChangingLoop s = false ->
  exists s',
    setLoop arg s = Done s'
    /\ loop s' = Some (requested arg)
    /\ _breakLoopEvent s' = true
    /\ _loopChangeEvent s' = true
    /\ _isChangingLoop s' = false
    /\ _hasChangeTimedOut s' = false
    /\ trace s' = trace s ++ [Sleep (1 # 20)].
Proof.
  intros Hcur Hid Hquiet.
  destruct (setLoop_cases arg s) as
    [(Hc & _ & _) | [(Hl & _) | [(c & Hl & Hsame & _ & H) | (c & Hl & _ & H)]]];
    try congruence.
  - rewrite Hcur in Hl. injection Hl as <-. contradiction.
  - exists (switch_to (requested arg) s).
    destruct (switch_to_fields (requested arg) s) as (? & ? & ? & ? & ? & _ & _ & ?).
    repeat split; assumption.
Qed.

Lemma setLoop_switch_effect_witness :
  exists s',
    setLoop None (Fixtures.playing Fixtures.steady Fixtures.slow_clock) = Done s'
    /\ loop s' = Some LEDThemes_null
    /\ trace s' = [Sleep (1 # 20)].
Proof.
  destruct (setLoop_switch_effect None
              (Fixtures.playing Fixtures.steady Fixtures.slow_clock) Fixtures.steady)
    as (s' & Hcall & Hloop & _ & _ & _ & _ & Htrace).
  - reflexivity.
  - intros Hid. vm_compute in Hid. discriminate Hid.
  - reflexivity.
  - exists s'. split; [exact Hcall|]. split; [exact Hloop|exact Htrace].
Defined.

(** Once a switch is marked as timed out, the next [setLoop] goes through
    even though a switch is in progress and even for the id already
    current: it installs the theme, raises both events and clears both
    flags. *)
Theorem setLoop_after_timeout_switches (arg : option LEDTheme) (s : State) (cur : LEDTheme) :
  loop s = Some cur ->
  _isChangingLoop s = true ->
  _hasChangeTimedOut s = true ->
  exists s',
    setLoop arg s = Done s'
    /\ loop s' = Some (requested arg)
    /\ _breakLoopEvent s' = true
    /\ _loopChangeEvent s' = true
    /\ _isChangingLoop s' = false
    /\ _hasChangeTimedOut s' = false
    /\ trace s' = trace s ++ [Sleep (1 # 20)].
Proof.
  intros Hcur Hbusy Hout.
  destruct (setLoop_cases arg s) as
    [(_ & Ht & _) | [(Hl & _) | [(c & _ & _ & Hq & _) | (c & Hl & _ & H)]]];
    try congruence.
  exists (switch_to (requested arg) s).
  destruct (switch_to_fields (requested arg) s) as (? & ? & ? & ? & ? & _ & _ & ?).
  repeat split; assumption.
Qed.

Lemma setLoop_after_timeout_switches_witness :
  exists s',
    setLoop (Some Fixtures.steady) (set_hasChangeTimedOut true Fixtures.mid_switch) = Done s'
    /\ _isChangingLoop s' = false
    /\ _hasChangeTimedOut s' = false
    /\ trace s' = [Sleep (1 # 20)].
Proof.
  destruct (setLoop_after_timeout_switches (Some Fixtures.steady)
              (set_hasChangeTimedOut true Fixtures.mid_switch) Fixtures.steady)
    as (s' & Hcall & _ & _ & _ & Hc & Ht & Htrace); try reflexivity.
  exists s'. repeat split; assumption.
Defined.

(** With no current theme to compare with, a [setLoop] that is not ignored
    fails on reading the id: an [AttributeError] leaves the call and the
    service is as it was. *)
Theorem setLoop_missing_current (arg : option LEDTheme) (s : State) :
  loop s = None ->
  _isChangingLoop s = false \/ _hasChangeTimedOut s = true ->
  setLoop arg s = Raised AttributeError s.
Proof.
  intros Hnone Hopen.
  destruct (setLoop_cases arg s) as
    [(Hc & Ht & _) | [(_ & H) | [(c & Hl & _) | (c & Hl & _)]]];
    try congruence.
  destruct Hopen; congruence.
Qed.

Lemma setLoop_missing_current_witness :
  setLoop (Some Fixtures.steady) (set_loop None Fixtures.fresh)
  = Raised AttributeError (set_loop None Fixtures.fresh).
Proof.
  apply (setLoop_missing_current (Some Fixtures.steady) (set_loop None Fixtures.fresh)).
  - reflexivity.
  - left. reflexivity.
Defined.

End SwitchingMore.

(** ** More on direct output *)

Section DirectOutputMore.
Import Observe.

Lemma sink_calls_app (a b : list Event) :
  sink_calls (a ++ b) = sink_calls a ++ sink_calls b.
Proof. apply omap_app. Qed.

Lemma sink_calls_sinks (cs : list SinkCall) : sink_calls (map Sink cs) = cs.
Proof. induction cs as [|c cs IH]; simpl; [reflexivity | now rewrite IH]. Qed.

(** What [setLoop] returns is the state it was given or the switched one;
    either way the strip and the driver calls so far are the same. *)
Lemma setLoop_done_output (arg : option LEDTheme) (s s1 : State) :
  setLoop arg s = Done s1 ->
  leds s1 = leds s /\ sink_calls (trace s1) = sink_calls (trace s).
Proof.
  intros Hcall.
  destruct (setLoop_cases arg s) as
    [(_ & _ & H) | [(_ & H) | [(c & _ & _ & _ & H) | (c & _ & _ & H)]]];
    rewrite H in Hcall; try discriminate; injection Hcall as <-; try (split; reflexivity).
  destruct (switch_to_fields (match arg with Some th => th | None => LEDThemes_null end) s)
    as (_ & _ & _ & _ & _ & _ & Hl & _).
  destruct (switch_to_trace_kinds (match arg with Some th => th | None => LEDThemes_null end) s)
    as (_ & _ & _ & _ & Hk & _).
  split; assumption.
Qed.

(** Whenever its call of [setLoop] returns, be it ignored, a no-op or a
    switch, [setSolid(r, g, b)] goes on to write [Color(r, g, b)] to the
    pixels 0 .. [LED_COUNT - 1] in order and to flush once.  These are its
    only driver calls; a strip of [LED_COUNT] pixels then holds the colour
    everywhere, and the brightness is as before. *)
Theorem setSolid_always_paints (r g b : Z) (s s1 : State) :
  setLoop (Some LEDThemes_null) s = Done s1 ->
  length (pixels (leds s)) = LED_COUNT ->
  exists s',
    setSolid r g b s = Done s'
    /\ sink_calls (trace s')
       = sink_calls (trace s)
         ++ map (fun i => SetPixelColor i (Color r g b)) (seq 0 LED_COUNT) ++ [Show]
    /\ pixels (leds s') = replicate LED_COUNT (Color r g b)
    /\ brightness (leds s') = brightness (leds s)
    /\ loop s' = loop s1.
Proof.
  intros Hcall Hlen.
  destruct (setLoop_done_output _ _ _ Hcall) as (Hleds & Hcalls).
  exists (sink_call Show (paint (Color r g b) s1)).
  destruct (sink_call_fields Show (paint (Color r g b) s1)) as (El & Et & Elo & _).
  destruct (paint_fields (Color r g b) s1) as (Pt & Pp & Pb & Pl & _).
  split; [unfold setSolid; now rewrite Hcall|].
  split.
  { rewrite Et, Pt, !sink_calls_app, Hcalls.
    change (sink_calls [Sink Show]) with [Show].
    rewrite <- (List.map_map (fun i => SetPixelColor i (Color r g b)) Sink).
    rewrite sink_calls_sinks. now rewrite <- app_assoc. }
  split; [rewrite El; cbn [apply_sink]; apply Pp; congruence|].
  split; [rewrite El; cbn [apply_sink]; congruence|].
  congruence.
Qed.

Lemma setSolid_always_paints_witness :
  exists s',
    setSolid 0 0 255 Fixtures.mid_switch = Done s'
    /\ pixels (leds s') = replicate LED_COUNT 255%Z
    /\ loop s' = Some Fixtures.steady.
Proof.
  destruct (setSolid_always_paints 0 0 255 Fixtures.mid_switch Fixtures.mid_switch)
    as (s' & Hsolid & _ & Hpx & _ & Hloop); try reflexivity.
  exists s'. split; [exact Hsolid|]. split; [exact Hpx|exact Hloop].
Defined.

(** With no current theme in place and no switch in progress, [setSolid]
    fails inside [setLoop] before any pixel is written: the
    [AttributeError] leaves the call and the service, strip included, is as
    it was.  The same holds for [off]. *)
Theorem setSolid_missing_current (r g b : Z) (s : State) :
  loop s = None ->
  _isChangingLoop s = false \/ _hasChangeTimedOut s = true ->
  setSolid r g b s = Raised AttributeError s
  /\ off s = Raised AttributeError s.
Proof.
  intros Hnone Hopen.
  assert (Hcall : setLoop (Some LEDThemes_null) s = Raised AttributeError s).
  { destruct (setLoop_cases (Some LEDThemes_null) s) as
      [(Hc & Ht & _) | [(_ & H) | [(c & Hl & _) | (c & Hl & _)]]];
      try congruence.
    destruct Hopen; congruence. }
  unfold off, setSolid. rewrite Hcall. now split.
Qed.

Lemma setSolid_missing_current_witness :
  off (set_loop None Fixtures.fresh) = Raised AttributeError (set_loop None Fixtures.fresh).
Proof.
  apply (setSolid_missing_current 0 0 0 (set_loop None Fixtures.fresh)).
  - reflexivity.
  - left. reflexivity.
Defined.

End DirectOutputMore.

(** ** More on the render worker *)

Section WorkerMore.
Import Observe.

Lemma theme_calls_app (a b : list Event) :
  theme_calls (a ++ b) = theme_calls a ++ theme_calls b.
Proof. apply omap_app. Qed.

Lemma theme_calls_sinks (cs : list SinkCall) : theme_calls (map Sink cs) = [].
Proof. induction cs as [|c cs IH]; [reflexivity | exact IH]. Qed.

(** A call into the theme: what else it leaves alone, and how it shows in
    the trace. *)
Lemma invoke_bookkeeping {A} (name : Method) (method : LEDTheme -> ThemeIn -> ThemeOut A)
    (s : State) :
  let s1 := fst (invoke name method s) in
  _loopChangeEvent s1 = _loopChangeEvent s
  /\ ticks s1 = ticks s
  /\ clock s1 = clock s
  /\ last_frame_time s1 = last_frame_time s
  /\ PERFORMANCE_MONITORING s1 = PERFORMANCE_MONITORING s
  /\ _performance_monitor s1 = _performance_monitor s
  /\ theme_calls (trace s1)
     = theme_calls (trace s)
       ++ match loop s with Some th => [(id th, name)] | None => [] end.
Proof.
  destruct (loop s) as [th|] eqn:Hth.
  - rewrite (invoke_current name method s th Hth).
    destruct s; simpl in *.
    rewrite theme_calls_app. simpl. rewrite theme_calls_sinks. now auto.
  - unfold invoke. rewrite Hth. simpl. rewrite app_nil_r. now auto.
Qed.

Lemma initialize_bookkeeping (s : State) :
  let s1 := fst (initialize s) in
  _loopChangeEvent s1 = _loopChangeEvent s
  /\ ticks s1 = ticks s
  /\ clock s1 = clock s
  /\ last_frame_time s1 = last_frame_time s
  /\ PERFORMANCE_MONITORING s1 = PERFORMANCE_MONITORING s
  /\ _performance_monitor s1 = _performance_monitor s.
Proof.
  unfold initialize.
  pose proof (invoke_bookkeeping m_passApp passApp s) as Ha.
  destruct (invoke m_passApp passApp s) as [sa [[]|ea]]; simpl in Ha;
    [|destruct Ha as (? & ? & ? & ? & ? & ? & _); now auto].
  pose proof (invoke_bookkeeping m_passArgs passArgs sa) as Hb.
  destruct (invoke m_passArgs passArgs sa) as [sb [[]|eb]]; simpl in Hb.
  - pose proof (invoke_bookkeeping m_runInit runInit sb) as Hc. simpl in Hc.
    destruct Ha as (? & ? & ? & ? & ? & ? & _), Hb as (? & ? & ? & ? & ? & ? & _),
             Hc as (? & ? & ? & ? & ? & ? & _).
    repeat split; congruence.
  - simpl.
    destruct Ha as (? & ? & ? & ? & ? & ? & _), Hb as (? & ? & ? & ? & ? & ? & _).
    repeat split; congruence.
Qed.

(** An initialisation that returns has made its three calls, in order. *)
Lemma initialize_calls (s s1 : State) (th : LEDTheme) :
  loop s = Some th ->
  initialize s = (s1, Return tt) ->
  theme_calls (trace s1)
  = theme_calls (trace s) ++ [(id th, m_passApp); (id th, m_passArgs); (id th, m_runInit)].
Proof.
  intros Hth. unfold initialize.
  pose proof (invoke_bookkeeping m_passApp passApp s) as Ha.
  pose proof (invoke_keeps m_passApp passApp s) as Ka.
  destruct (invoke m_passApp passApp s) as [sa [[]|ea]]; simpl in Ha, Ka; [|discriminate].
  pose proof (invoke_bookkeeping m_passArgs passArgs sa) as Hb.
  pose proof (invoke_keeps m_passArgs passArgs sa) as Kb.
  destruct (invoke m_passArgs passArgs sa) as [sb [[]|eb]]; simpl in Hb, Kb; [|discriminate].
  pose proof (invoke_bookkeeping m_runInit runInit sb) as Hc.
  intros Hinit. rewrite Hinit in Hc. simpl in Hc.
  destruct Ha as (_ & _ & _ & _ & _ & _ & Ha), Hb as (_ & _ & _ & _ & _ & _ & Hb),
           Hc as (_ & _ & _ & _ & _ & _ & Hc).
  destruct Ka as (Ka & _), Kb as (Kb & _).
  rewrite Kb, Ka, Hth in Hc. rewrite Ka, Hth in Hb. rewrite Hth in Ha.
  rewrite Hc, Hb, Ha, <- !app_assoc. reflexivity.
Qed.

(** The state a step is called in, and the state it leaves. *)
Lemma frame_on_step_result (s : State) (th : LEDTheme) :
  loop s = Some th ->
  let o := runLoop th (mkIn (store s) (leds s) (_breakLoopEvent s)) in
  let s1 := fst (invoke m_runLoop runLoop (set_ticks (S (ticks s)) s)) in
  trace s1 = trace s ++ ThemeCall (id th) m_runLoop :: map Sink (out_sink o)
  /\ loop s1 = Some th
  /\ _isRunning s1 = _isRunning s
  /\ _isChangingLoop s1 = _isChangingLoop s
  /\ _performance_monitor s1 = _performance_monitor s
  /\ (forall v, out_result o = Return (Some v) -> frame s = Break (set_breakLoopEvent true s1))
  /\ (forall e, out_result o = Raise e -> exc_is_Exception e = false -> frame s = Escapes e s1).
Proof.
  intros Hth o s1. unfold s1, frame, time.
  rewrite (invoke_current m_runLoop runLoop _ th) by (destruct s; exact Hth).
  destruct s as [l lo br ch ru ic ht lf pm mo st cl ti tr]; simpl in *. subst lo.
  fold o. repeat split.
  - intros v Hv. now rewrite Hv.
  - intros e He Hk. now rewrite He, Hk.
Qed.

(** A step that returns a value ends the episode without any report: the
    worker leaves the inner loop, clears both events and is back at its
    outer test, still running.  No frame is recorded and nothing is slept.
    The theme stays current, so the next pass initialises it again. *)
Theorem step_stop_ends_episode (fuel : nat) (s : State) (th : LEDTheme) (v : string) :
  loop s = Some th ->
  _breakLoopEvent s = false ->
  _isRunning s = true ->
  _loopChangeEvent s = false ->
  out_result (runLoop th (mkIn (store s) (leds s) false)) = Return (Some v) ->
  exists s',
    episode (S fuel) s = Done s'
    /\ trace s'
       = trace s
         ++ ThemeCall (id th) m_runLoop
            :: map Sink (out_sink (runLoop th (mkIn (store s) (leds s) false)))
    /\ _breakLoopEvent s' = false
    /\ _loopChangeEvent s' = false
    /\ _isRunning s' = true
    /\ loop s' = Some th
    /\ _isChangingLoop s' = _isChangingLoop s
    /\ _performance_monitor s' = _performance_monitor s.
Proof.
  intros Hth Hb Hr Hc Hstop.
  destruct (frame_on_step_result s th Hth) as (Ht & Hl & Hrun & Hch & Hm & Hbreak & _).
  rewrite Hb in Ht, Hbreak. specialize (Hbreak v Hstop).
  unfold episode. cbn [frames]. rewrite Hb, Hr, Hc. cbn [negb andb]. rewrite Hbreak.
  eexists. split; [reflexivity|].
  destruct (fst (invoke m_runLoop runLoop (set_ticks (S (ticks s)) s))); simpl in *.
  repeat split; congruence.
Qed.

Lemma step_stop_ends_episode_witness :
  exists s',
    episode 1 (Fixtures.playing Fixtures.finishing Fixtures.slow_clock) = Done s'
    /\ trace s' = [ThemeCall "finishing" m_runLoop]
    /\ loop s' = Some Fixtures.finishing.
Proof.
  destruct (step_stop_ends_episode 0
              (Fixtures.playing Fixtures.finishing Fixtures.slow_clock)
              Fixtures.finishing "done")
    as (s' & Hep & Htrace & _ & _ & _ & Hloop & _); try reflexivity.
  exists s'. split; [exact Hep|]. split; [exact Htrace|exact Hloop].
Defined.

(** An exception raised by a step that is not an [Exception] (a
    [SystemExit], say) is not caught: it leaves the inner loop, the outer
    loop and the worker, whose thread ends there.  Nothing is reported to
    the error callback and the events are not cleared. *)
Theorem step_base_exception_kills_worker
    (fuel : nat) (s0 s : State) (th : LEDTheme) (e : PyExc) :
  loop s0 = Some th ->
  id th <> "null" ->
  _isRunning s0 = true ->
  _isChangingLoop s0 = false ->
  _loopChangeEvent s0 = false ->
  initialize s0 = (s, Return tt) ->
  _breakLoopEvent s = false ->
  out_result (runLoop th (mkIn (store s) (leds s) false)) = Raise e ->
  exc_is_Exception e = false ->
  exists s',
    run (S (S fuel)) s0 = Raised e s'
    /\ Spec.error_reports (trace s') = Spec.error_reports (trace s0)
    /\ theme_calls (trace s')
       = theme_calls (trace s0)
         ++ [(id th, m_passApp); (id th, m_passArgs); (id th, m_runInit); (id th, m_runLoop)].
Proof.
  intros Hth Hid Hrun Hquiet Hchange Hinit Hbreak Hraise Hkind.
  pose proof (initialize_keeps s0) as K. rewrite Hinit in K. simpl in K.
  destruct K as (Kl & _ & _ & Kr & Ke & _).
  pose proof (initialize_bookkeeping s0) as B. rewrite Hinit in B. simpl in B.
  destruct B as (Bc & _).
  pose proof (initialize_calls s0 s th Hth Hinit) as Hcalls.
  assert (Hs : loop s = Some th) by congruence.
  destruct (frame_on_step_result s th Hs) as (Ht & _ & _ & _ & _ & _ & Hesc).
  rewrite Hbreak in Ht, Hesc. specialize (Hesc e Hraise Hkind).
  cbn [run]. rewrite Hrun. unfold iteration. rewrite Hth. simpl.
  apply String.eqb_neq in Hid. rewrite Hid, Hquiet, Hinit.
  unfold episode. cbn [frames].
  rewrite Hbreak, Kr, Hrun, Bc, Hchange. cbn [negb andb]. rewrite Hesc.
  eexists. split; [reflexivity|].
  rewrite Ht, error_reports_app, theme_calls_app. simpl.
  rewrite error_reports_sinks, theme_calls_sinks, app_nil_r, Ke, Hcalls, <- app_assoc.
  now split.
Qed.

Lemma step_base_exception_kills_worker_witness :
  exists s',
    run 2 (Fixtures.playing Fixtures.exiting Fixtures.slow_clock)
    = Raised Fixtures.SystemExit s'
    /\ Spec.error_reports (trace s') = [].
Proof.
  destruct (step_base_exception_kills_worker 0
              (Fixtures.playing Fixtures.exiting Fixtures.slow_clock)
              (fst (initialize (Fixtures.playing Fixtures.exiting Fixtures.slow_clock)))
              Fixtures.exiting Fixtures.SystemExit)
    as (s' & Hrun & Herr & _); try reflexivity.
  - intros Hid. vm_compute in Hid. discriminate Hid.
  - exists s'. split; [exact Hrun|exact Herr].
Defined.

(** Likewise for the initialisation: an exception that is not an
    [Exception] ends the worker; there is no report, no back-off and no
    fall-back to the null theme. *)
Theorem init_base_exception_kills_worker
    (fuel : nat) (s s1 : State) (th : LEDTheme) (e : PyExc) :
  loop s = Some th ->
  id th <> "null" ->
  _isRunning s = true ->
  _isChangingLoop s = false ->
  initialize s = (s1, Raise e) ->
  exc_is_Exception e = false ->
  run (S fuel) s = Raised e s1
  /\ loop s1 = Some th
  /\ Spec.error_reports (trace s1) = Spec.error_reports (trace s)
  /\ Spec.sleeps_of (trace s1) = Spec.sleeps_of (trace s).
Proof.
  intros Hth Hid Hrun Hquiet Hinit Hkind.
  pose proof (initialize_keeps s) as K. rewrite Hinit in K. simpl in K.
  destruct K as (Kl & _ & _ & _ & Ke & Ks).
  cbn [run]. rewrite Hrun. unfold iteration. rewrite Hth. simpl.
  apply String.eqb_neq in Hid. rewrite Hid, Hquiet, Hinit, Hkind.
  repeat split; congruence.
Qed.

Lemma init_base_exception_kills_worker_witness :
  exists s1,
    run 1 (Fixtures.playing Fixtures.exiting_init Fixtures.slow_clock)
    = Raised Fixtures.SystemExit s1
    /\ loop s1 = Some Fixtures.exiting_init.
Proof.
  exists (fst (initialize (Fixtures.playing Fixtures.exiting_init Fixtures.slow_clock))).
  destruct (init_base_exception_kills_worker 0
              (Fixtures.playing Fixtures.exiting_init Fixtures.slow_clock)
              (fst (initialize (Fixtures.playing Fixtures.exiting_init Fixtures.slow_clock)))
              Fixtures.exiting_init Fixtures.SystemExit)
    as (Hrun & Hloop & _); try reflexivity.
  - intros Hid. vm_compute in Hid. discriminate Hid.
  - split; [exact Hrun|exact Hloop].
Defined.

(** While [_isChangingLoop] is set the worker does not start an episode,
    even with an active theme current: each pass is one 10 ms sleep, with
    no theme call and no driver call, for as many passes as the flag stays
    set. *)
Theorem worker_waits_during_switch (n : nat) (s : State) :
  _isChangingLoop s = true ->
  _isRunning s = true ->
  exists s',
    run n s = StillLooping s'
    /\ trace s' = trace s ++ replicate n (Sleep (1 # 100))
    /\ leds s' = leds s
    /\ store s' = store s
    /\ loop s' = loop s.
Proof.
  revert s. induction n as [|n IH]; intros s Hbusy Hrun; simpl; rewrite Hrun.
  - exists s. rewrite app_nil_r. now auto.
  - assert (Hit : iteration n s = Done (sleep (1 # 100) s)).
    { unfold iteration. rewrite Hbusy. now destruct (is_idle (loop s)). }
    rewrite Hit.
    destruct (sleep_fields (1 # 100) s) as (El & Et & Elo & Es & Er & Ec).
    destruct (IH (sleep (1 # 100) s)) as (s' & Hs' & Ht & Hl & Hst & Hlo);
      [congruence|congruence|].
    exists s'. rewrite Hs', Ht, Hl, Hst, Hlo, El, Es, Elo, Et.
    rewrite <- app_assoc. now auto.
Qed.

Lemma worker_waits_during_switch_witness :
  exists s',
    run 3 Fixtures.mid_switch = StillLooping s'
    /\ trace s' = [Sleep (1 # 100); Sleep (1 # 100); Sleep (1 # 100)].
Proof.
  destruct (worker_waits_during_switch 3 Fixtures.mid_switch)
    as (s' & Hrun & Htrace & _); try reflexivity.
  exists s'. split; [exact Hrun|exact Htrace].
Defined.

(** A pass that finds an active theme while the change event is still
    set initialises the theme and then runs no step at all: the inner loop
    is left at its first test and the events are cleared. *)
Lemma pass_with_event_set (fuel : nat) (s s1 : State) (th : LEDTheme) :
  loop s = Some th ->
  id th <> "null" ->
  _isChangingLoop s = false ->
  _loopChangeEvent s = true ->
  initialize s = (s1, Return tt) ->
  iteration fuel s = Done (set_loopChangeEvent false (set_breakLoopEvent false s1)).
Proof.
  intros Hth Hid Hquiet Hev Hinit.
  pose proof (initialize_bookkeeping s) as B. rewrite Hinit in B. simpl in B.
  destruct B as (Bc & _).
  unfold iteration. rewrite Hth. simpl.
  apply String.eqb_neq in Hid. rewrite Hid, Hquiet, Hinit.
  unfold episode. destruct fuel; cbn [frames]; rewrite Bc, Hev, andb_false_r; reflexivity.
Qed.

Lemma cleared_fields (s : State) :
  let s' := set_loopChangeEvent false (set_breakLoopEvent false s) in
  loop s' = loop s
  /\ _breakLoopEvent s' = false
  /\ _loopChangeEvent s' = false
  /\ _isChangingLoop s' = _isChangingLoop s
  /\ _isRunning s' = _isRunning s
  /\ trace s' = trace s
  /\ leds s' = leds s.
Proof. destruct s; repeat split. Qed.

(** A theme installed by [setLoop] while the worker idles on the null
    theme is initialised twice before its first step.  [setLoop] leaves
    both events set; the worker's next pass initialises the theme, finds
    the events set, runs no step and clears them; the pass after that
    initialises the theme again and only then enters the frame loop.  (The
    theme's three initialisation calls are taken to return.) *)
Theorem theme_started_from_idle_is_initialised_twice
    (f1 f2 : nat) (s0 : State) (cur T : LEDTheme) :
  loop s0 = Some cur ->
  id cur = "null" ->
  id T <> "null" ->
  _isChangingLoop s0 = false ->
  (forall i, out_result (passApp T i) = Return tt) ->
  (forall i, out_result (passArgs T i) = Return tt) ->
  (forall i, out_result (runInit T i) = Return tt) ->
  exists s1 s2 s3,
    setLoop (Some T) s0 = Done s1
    /\ iteration f1 s1 = Done s2
    /\ theme_calls (trace s2)
       = theme_calls (trace s0) ++ [(id T, m_passApp); (id T, m_passArgs); (id T, m_runInit)]
    /\ initialize s2 = (s3, Return tt)
    /\ iteration f2 s2 = episode f2 s3
    /\ theme_calls (trace s3)
       = theme_calls (trace s0)
         ++ [(id T, m_passApp); (id T, m_passArgs); (id T, m_runInit);
             (id T, m_passApp); (id T, m_passArgs); (id T, m_runInit)].
Proof.
  intros Hcur Hnull Hid Hquiet Happ Hargs Hinit.
  assert (Hreturns : forall s, loop s = Some T ->
                               exists s', initialize s = (s', Return tt)).
  { intros s Hl. unfold initialize.
    pose proof (invoke_keeps m_passApp passApp s) as Ka.
    rewrite (invoke_current m_passApp passApp s T Hl) in *. simpl in Ka.
    rewrite Happ.
    destruct Ka as (Ka & _).
    match goal with |- context [invoke m_passArgs passArgs ?x] => set (sa := x) in * end.
    assert (Hla : loop sa = Some T) by congruence.
    pose proof (invoke_keeps m_passArgs passArgs sa) as Kb.
    rewrite (invoke_current m_passArgs passArgs sa T Hla) in *. simpl in Kb.
    rewrite Hargs.
    destruct Kb as (Kb & _).
    match goal with |- context [invoke m_runInit runInit ?x] => set (sb := x) in * end.
    assert (Hlb : loop sb = Some T) by congruence.
    rewrite (invoke_current m_runInit runInit sb T Hlb). rewrite Hinit.
    eexists. reflexivity. }
  assert (Hne : id T <> id cur) by congruence.
  destruct (setLoop_cases (Some T) s0) as
    [(Hc & _ & _) | [(Hl & _) | [(c & Hl & Hsame & _ & _) | (c & _ & _ & Hcall)]]];
    try congruence.
  destruct (switch_to_fields T s0) as (Sl & Sc & _ & _ & Sev & _).
  destruct (switch_to_trace_kinds T s0) as (_ & _ & _ & _ & _ & Scalls & _).
  set (s1 := switch_to T s0) in *.
  destruct (Hreturns s1 Sl) as (s1' & Hinit1).
  pose proof (pass_with_event_set f1 s1 s1' T Sl Hid Sc Sev Hinit1) as Hpass1.
  pose proof (initialize_calls s1 s1' T Sl Hinit1) as Hcalls1.
  pose proof (initialize_keeps s1) as K1. rewrite Hinit1 in K1. simpl in K1.
  destruct K1 as (K1l & K1c & _).
  set (s2 := set_loopChangeEvent false (set_breakLoopEvent false s1')) in *.
  destruct (cleared_fields s1') as (Cl & _ & _ & Cc & _ & Ct & _). fold s2 in Cl, Cc, Ct.
  assert (Hl2 : loop s2 = Some T) by congruence.
  destruct (Hreturns s2 Hl2) as (s3 & Hinit2).
  pose proof (initialize_calls s2 s3 T Hl2 Hinit2) as Hcalls2.
  exists s1, s2, s3.
  split; [exact Hcall|]. split; [exact Hpass1|].
  split; [rewrite Ct, Hcalls1, Scalls; reflexivity|].
  split; [exact Hinit2|].
  split.
  - unfold iteration. rewrite Hl2. simpl.
    apply String.eqb_neq in Hid. rewrite Hid.
    assert (Hq2 : _isChangingLoop s2 = false) by congruence.
    now rewrite Hq2, Hinit2.
  - rewrite Hcalls2, Ct, Hcalls1, Scalls, <- app_assoc. reflexivity.
Qed.

Lemma theme_started_from_idle_is_initialised_twice_witness :
  exists s1 s2 s3,
    setLoop (Some Fixtures.steady) Fixtures.fresh = Done s1
    /\ iteration 0 s1 = Done s2
    /\ initialize s2 = (s3, Return tt)
    /\ theme_calls (trace s3)
       = [("steady", m_passApp); ("steady", m_passArgs); ("steady", m_runInit);
          ("steady", m_passApp); ("steady", m_passArgs); ("steady", m_runInit)].
Proof.
  destruct (theme_started_from_idle_is_initialised_twice 0 0
              Fixtures.fresh LEDThemes_null Fixtures.steady)
    as (s1 & s2 & s3 & Hcall & Hpass & _ & Hinit & _ & Hcalls); try reflexivity.
  - intros Hid. vm_compute in Hid. discriminate Hid.
  - exists s1, s2, s3. repeat split; assumption.
Defined.

(** After [shutdown] the worker stops at the next test of whichever loop
    it is in, with any amount of fuel: at the outer test its target
    returns at once; at the inner test it leaves the frame loop without a
    step, clears the events and returns at the outer test.  Nothing is
    added to the trace, and theme and strip are as they were. *)
Theorem shutdown_stops_worker (f1 f2 : nat) (s : State) :
  run f1 (shutdown s) = Done (shutdown s)
  /\ exists s',
       episode f1 (shutdown s) = Done s'
       /\ run f2 s' = Done s'
       /\ _isRunning s' = false
       /\ trace s' = trace s
       /\ leds s' = leds s
       /\ loop s' = loop s.
Proof.
  split.
  - destruct f1; destruct s; reflexivity.
  - exists (set_loopChangeEvent false (set_breakLoopEvent false (shutdown s))).
    split; [destruct f1; destruct s; reflexivity|].
    split; [destruct f2; destruct s; reflexivity|].
    destruct s; repeat split.
Qed.

(** A frame whose step returns [None] hands one sample to the monitor,
    when monitoring is available and a monitor exists: the duration is the
    time between the two clock readings around the step (no sleep is
    included) and the monitor stamps it with a clock reading of its own.
    Without a monitor nothing is recorded and no reading is taken. *)
Theorem frame_records_sample (s : State) (th : LEDTheme) :
  loop s = Some th ->
  out_result (runLoop th (mkIn (store s) (leds s) (_breakLoopEvent s))) = Return None ->
  exists s',
    frame s = Next s'
    /\ _performance_monitor s'
       = (if PERFORMANCE_MONITORING s
          then option_map
                 (PerformanceMonitor.record_led_frame
                    (clock s (2 + ticks s))
                    (clock s (1 + ticks s) - clock s (ticks s))%Q)
                 (_performance_monitor s)
          else _performance_monitor s)
    /\ (PERFORMANCE_MONITORING s = false \/ _performance_monitor s = None ->
        (ticks s' = 3 + ticks s \/ ticks s' = 4 + ticks s)%nat)
    /\ (PERFORMANCE_MONITORING s = true -> is_Some (_performance_monitor s) ->
        (ticks s' = 4 + ticks s \/ ticks s' = 5 + ticks s)%nat).
Proof.
  intros Hth Hret.
  unfold frame, time.
  rewrite (invoke_current m_runLoop runLoop _ th) by (destruct s; exact Hth).
  destruct s as [l lo br ch ru ic ht lf pm mo st cl ti tr]; simpl in *.
  rewrite Hret. unfold py_max, record_led_frame, time.
  destruct pm, mo as [m|]; simpl;
    destruct (PerformanceMonitor.Qltb 0 (frame_time_target - (cl (S ti) - cl ti))) eqn:Hp;
    simpl; rewrite ?Hp; simpl.
  all: match goal with
       | |- context [if PerformanceMonitor.Qltb (16 # 1000) ?x then _ else _] =>
           destruct (PerformanceMonitor.Qltb (16 # 1000) x)
       end.
  all: eexists; split; [reflexivity|]; simpl.
  all: split; [reflexivity|].
  all: split; [intros [Hoff | Hoff]; try discriminate Hoff; auto | intros Hon Hsome].
  all: try discriminate Hon.
  all: try (destruct Hsome as [? Hsome]; discriminate Hsome).
  all: auto.
Qed.

Lemma frame_records_sample_witness :
  exists s',
    frame (set_performance_monitor (Some PerformanceMonitor.init)
             (Fixtures.playing Fixtures.steady Fixtures.fast_clock))
    = Next s'
    /\ option_map PerformanceMonitor.led_frame_times (_performance_monitor s')
       = Some [(Fixtures.fast_clock 2, (Fixtures.fast_clock 1 - Fixtures.fast_clock 0)%Q)].
Proof.
  destruct (frame_records_sample
              (set_performance_monitor (Some PerformanceMonitor.init)
                 (Fixtures.playing Fixtures.steady Fixtures.fast_clock))
              Fixtures.steady)
    as (s' & Hframe & Hmon & _); try reflexivity.
  exists s'. split; [exact Hframe|]. rewrite Hmon. reflexivity.
Defined.

(** The worker of a service just constructed idles: whatever the clock
    and however long it is watched, it calls no theme, writes nothing to
    the strip and only sleeps 10 ms per pass. *)
Theorem fresh_service_idles (n : nat) (world_clock : nat -> Q) :
  exists s',
    _ledLoopTarget n (init world_clock) = StillLooping s'
    /\ trace s' = replicate n (Sleep (1 # 100))
    /\ leds s' = mkStrip (replicate LED_COUNT 0%Z) 255
    /\ loop s' = Some LEDThemes_null.
Proof.
  unfold _ledLoopTarget, time.
  destruct (idle_run n (set_last_frame_time (world_clock 0%nat)
                          (set_ticks 1 (init world_clock))))
    as (s' & Hrun & Hl & _ & Hlo & Ht); try reflexivity.
  exists s'. split; [exact Hrun|]. split; [exact Ht|]. split; [exact Hl|exact Hlo].
Qed.

End WorkerMore.

(** ** More on the frame statistics *)

Section StatisticsMore.
Import PerformanceMonitor.
Local Open Scope Q_scope.

(** [record_led_frame] in closed form: the new window, and the metrics
    computed from it or carried over. *)
Lemma record_led_frame_closed (current_time frame_time : Q) (self : t) :
  let window :=
    recent (current_time - 1) (led_frame_times self) ++ [(current_time, frame_time)] in
  record_led_frame current_time frame_time self
  = if (1 <? length window)%nat && Qltb 0 (current_time - first_stamp window)
    then mk (len window / (current_time - first_stamp window))
            (sum_ft window / len window) window
    else mk (led_fps self) (led_frame_time self) window.
Proof.
  intros window. unfold record_led_frame. cbv zeta.
  rewrite recent_appended. fold window.
  assert (Hlast : last_stamp window = current_time).
  { unfold window, last_stamp. now rewrite List.last_last. }
  rewrite Hlast.
  destruct (1 <? length window)%nat; [destruct (Qltb 0 _)|]; reflexivity.
Qed.

(** The oldest sample kept is less than a second old. *)
Lemma first_stamp_recent (current_time frame_time : Q) (old : list (Q * Q)) :
  current_time - 1
  < first_stamp (recent (current_time - 1) old ++ [(current_time, frame_time)]).
Proof.
  destruct (recent (current_time - 1) old) as [|p kept] eqn:Hk; unfold first_stamp; simpl.
  - lra.
  - assert (Hin : List.In p (recent (current_time - 1) old)) by (rewrite Hk; now left).
    apply List.filter_In in Hin. destruct Hin as [_ Hp]. now apply Qltb_lt.
Qed.


Lemma len_nonneg {A} (xs : list A) : 0 <= len xs.
Proof.
  unfold len. change 0 with (inject_Z 0). rewrite <- Zle_Qle. lia.
Qed.

Lemma len_at_least {A} (xs : list A) (n : nat) :
  (n <= length xs)%nat -> inject_Z (Z.of_nat n) <= len xs.
Proof. intros H. unfold len. rewrite <- Zle_Qle. lia. Qed.


(** Whenever [record_led_frame] computes the rate, the window spans less
    than a second, so the rate it stores is larger than the number of
    samples in the window, and larger than 2. *)
Theorem led_fps_exceeds_sample_count (current_time frame_time : Q) (self : t) :
  let after := record_led_frame current_time frame_time self in
  let window := led_frame_times after in
  (2 <= length window)%nat ->
  first_stamp window < last_stamp window ->
  last_stamp window - first_stamp window < 1
  /\ len window < led_fps after
  /\ 2 < led_fps after.
Proof.
  intros after window. unfold window, after.
  rewrite record_led_frame_closed.
  set (w := recent (current_time - 1) (led_frame_times self) ++ [(current_time, frame_time)]).
  assert (Hlast : last_stamp w = current_time).
  { unfold w, last_stamp. now rewrite List.last_last. }
  pose proof (first_stamp_recent current_time frame_time (led_frame_times self)) as Hfirst.
  fold w in Hfirst.
  destruct (1 <? length w)%nat eqn:H1;
    destruct (Qltb 0 (current_time - first_stamp w)) eqn:H2; simpl;
    rewrite Hlast; intros Hlen Hspan;
    try (apply Qltb_ge in H2; lra);
    try (apply Nat.ltb_ge in H1; lia).
  pose proof (len_at_least w 2 Hlen) as Hcount. change (inject_Z (Z.of_nat 2)) with 2 in Hcount.
  assert (Hmore : len w < len w / (current_time - first_stamp w)).
  { apply Qlt_shift_div_l; [lra|]. nra. }
  repeat split; lra.
Qed.

Lemma led_fps_exceeds_sample_count_witness :
  2 < led_fps (record_led_frame (3 # 2) (1 # 4) (record_led_frame 1 (1 # 4) init)).
Proof.
  destruct (led_fps_exceeds_sample_count (3 # 2) (1 # 4) (record_led_frame 1 (1 # 4) init))
    as (_ & _ & H).
  - vm_compute. lia.
  - reflexivity.
  - exact H.
Defined.



Lemma sum_ft_nonneg (xs : list (Q * Q)) :
  List.Forall (fun p => 0 <= snd p) xs -> 0 <= sum_ft xs.
Proof.
  intros Hall. unfold sum_ft. rewrite sum_ft_from, Qplus_0_l.
  induction Hall as [|p xs Hp _ IH]; cbn [List.map fold_right]; lra.
Qed.

(** Fed with durations that are not negative, the monitor never shows a
    negative rate or a negative mean frame time, and never keeps a
    negative duration: the three hold initially and after each
    [record_led_frame] if they held before. *)
Theorem metrics_stay_nonnegative (current_time frame_time : Q) (self : t) :
  0 <= frame_time ->
  0 <= led_fps self ->
  0 <= led_frame_time self ->
  List.Forall (fun p => 0 <= snd p) (led_frame_times self) ->
  let after := record_led_frame current_time frame_time self in
  0 <= led_fps after
  /\ 0 <= led_frame_time after
  /\ List.Forall (fun p => 0 <= snd p) (led_frame_times after)
  /\ 0 <= led_fps init /\ 0 <= led_frame_time init
  /\ List.Forall (fun p => 0 <= snd p) (led_frame_times init).
Proof.
  intros Hft Hfps Hmean Hall after. unfold after.
  rewrite record_led_frame_closed.
  set (w := recent (current_time - 1) (led_frame_times self) ++ [(current_time, frame_time)]).
  assert (Hw : List.Forall (fun p => 0 <= snd p) w).
  { unfold w. apply List.Forall_app. split.
    - apply List.Forall_forall. intros p Hp. apply List.filter_In in Hp.
      destruct Hp as [Hp _]. revert p Hp. now apply List.Forall_forall.
    - repeat constructor. exact Hft. }
  assert (Hinit : 0 <= led_fps init /\ 0 <= led_frame_time init
                  /\ List.Forall (fun p => 0 <= snd p) (led_frame_times init)).
  { repeat split; try (simpl; lra). constructor. }
  destruct (1 <? length w)%nat eqn:H1;
    destruct (Qltb 0 (current_time - first_stamp w)) eqn:H2; simpl;
    try (repeat split; try assumption; apply Hinit).
  apply Nat.ltb_lt in H1. apply Qltb_lt in H2.
  pose proof (len_at_least w 2 H1) as Hcount.
  change (inject_Z (Z.of_nat 2)) with 2 in Hcount.
  pose proof (sum_ft_nonneg w Hw) as Hsum.
  split; [apply Qle_shift_div_l; lra|].
  split; [apply Qle_shift_div_l; lra|].
  split; [exact Hw|exact Hinit].
Qed.

Lemma metrics_stay_nonnegative_witness :
  0 <= led_fps (record_led_frame (3 # 2) (1 # 4) (record_led_frame 1 (1 # 4) init)).
Proof.
  destruct (metrics_stay_nonnegative (3 # 2) (1 # 4) (record_led_frame 1 (1 # 4) init))
    as (H & _).
  - discriminate.
  - discriminate.
  - discriminate.
  - vm_compute. repeat constructor; discriminate.
  - exact H.
Defined.

(** [record_led_frame] drops a sample only for its age: the new window
    holds the new sample and exactly those old ones stamped later than one
    second before the call, so it is at most one longer than the old
    one. *)
Theorem window_drops_only_old_samples (current_time frame_time : Q) (self : t) :
  let window := led_frame_times (record_led_frame current_time frame_time self) in
  (forall p, List.In p window <->
             p = (current_time, frame_time)
             \/ (List.In p (led_frame_times self) /\ current_time - 1 < fst p))
  /\ (1 <= length window <= S (length (led_frame_times self)))%nat.
Proof.
  intros window. unfold window. rewrite record_led_frame_closed.
  set (w := recent (current_time - 1) (led_frame_times self) ++ [(current_time, frame_time)]).
  assert (Hwin : led_frame_times
                   (if (1 <? length w)%nat && Qltb 0 (current_time - first_stamp w)
                    then mk (len w / (current_time - first_stamp w)) (sum_ft w / len w) w
                    else mk (led_fps self) (led_frame_time self) w) = w)
    by (destruct (_ && _); reflexivity).
  rewrite Hwin. unfold w. split.
  - intros p. rewrite List.in_app_iff. unfold recent. rewrite List.filter_In, Qltb_lt.
    simpl. intuition congruence.
  - rewrite List.length_app. simpl.
    pose proof (List.filter_length_le
                  (fun p => Qltb (current_time - 1) (fst p)) (led_frame_times self)) as Hle.
    unfold recent. lia.
Qed.

(** The number of samples kept has no limit of its own (the attribute
    [max_frame_samples] is not consulted): frames recorded one after the
    other with stamps inside one and the same second are all in the
    window afterwards, in the order recorded, however many they are. *)
Theorem window_has_no_size_limit (start : Q) (frames : list (Q * Q)) :
  List.Forall (fun p => start < fst p <= start + 1) frames ->
  led_frame_times
    (fold_left (fun m p => record_led_frame (fst p) (snd p) m) frames init)
  = frames.
Proof.
  induction frames as [|p frames IH] using List.rev_ind; intros Hall; [reflexivity|].
  apply List.Forall_app in Hall. destruct Hall as [Hold Hnew].
  apply List.Forall_inv in Hnew.
  rewrite fold_left_app. cbn [fold_left].
  set (m := fold_left (fun m p => record_led_frame (fst p) (snd p) m) frames init) in *.
  rewrite record_led_frame_closed.
  set (w := recent (fst p - 1) (led_frame_times m) ++ [(fst p, snd p)]).
  assert (Hwin : led_frame_times
                   (if (1 <? length w)%nat && Qltb 0 (fst p - first_stamp w)
                    then mk (len w / (fst p - first_stamp w)) (sum_ft w / len w) w
                    else mk (led_fps m) (led_frame_time m) w) = w)
    by (destruct (_ && _); reflexivity).
  rewrite Hwin. unfold w. rewrite (IH Hold).
  assert (Hkeep : recent (fst p - 1) frames = frames).
  { unfold recent. apply List.forallb_filter_id. apply List.forallb_forall.
    intros q Hq. apply Qltb_lt.
    assert (Hq' : start < fst q <= start + 1)
      by (revert q Hq; now apply List.Forall_forall).
    lra. }
  rewrite Hkeep. now destruct p.
Qed.

Lemma window_has_no_size_limit_witness :
  length (led_frame_times
            (fold_left (fun m p => record_led_frame (fst p) (snd p) m)
               [(1 # 4, 1 # 100); (1 # 2, 1 # 100); (3 # 4, 1 # 100); (1, 1 # 100)] init))
  = 4%nat.
Proof.
  rewrite (window_has_no_size_limit 0
             [(1 # 4, 1 # 100); (1 # 2, 1 # 100); (3 # 4, 1 # 100); (1, 1 # 100)]).
  - reflexivity.
  - repeat constructor; simpl; lra.
Defined.

Lemma recent_sorted (cutoff : Q) (xs : list (Q * Q)) :
  StronglySorted (fun p q => fst p <= fst q) xs ->
  StronglySorted (fun p q => fst p <= fst q) (recent cutoff xs).
Proof.
  induction 1 as [|a l Hsorted IH Hall]; simpl; [constructor|].
  destruct (Qltb cutoff (fst a)); [|exact IH].
  constructor; [exact IH|].
  apply List.Forall_forall. intros q Hq. apply List.filter_In in Hq.
  destruct Hq as [Hq _]. revert q Hq. now apply List.Forall_forall.
Qed.

Lemma sorted_snoc (xs : list (Q * Q)) (x : Q * Q) :
  StronglySorted (fun p q => fst p <= fst q) xs ->
  List.Forall (fun p => fst p <= fst x) xs ->
  StronglySorted (fun p q => fst p <= fst q) (xs ++ [x]).
Proof.
  induction 1 as [|a l Hsorted IH Hall]; intros Hle; simpl.
  - repeat constructor.
  - apply List.Forall_cons_iff in Hle. destruct Hle as [Ha Hl].
    constructor; [now apply IH|].
    apply List.Forall_app. split; [exact Hall|]. now repeat constructor.
Qed.

(** If the window is in the order of its stamps and holds no stamp later
    than the time of the call (as under a clock that does not run
    backwards), it is so again after [record_led_frame]; its first stamp
    is then the oldest and its last, the time of the call, the newest, so
    the span the rate is computed from is the span of the whole window. *)
Theorem window_stays_chronological (current_time frame_time : Q) (self : t) :
  StronglySorted (fun p q => fst p <= fst q) (led_frame_times self) ->
  List.Forall (fun p => fst p <= current_time) (led_frame_times self) ->
  let window := led_frame_times (record_led_frame current_time frame_time self) in
  StronglySorted (fun p q => fst p <= fst q) window
  /\ List.Forall (fun p => fst p <= current_time) window
  /\ last_stamp window = current_time
  /\ List.Forall (fun p => first_stamp window <= fst p) window.
Proof.
  intros Hsorted Hpast window. unfold window. rewrite record_led_frame_closed.
  set (w := recent (current_time - 1) (led_frame_times self) ++ [(current_time, frame_time)]).
  assert (Hwin : led_frame_times
                   (if (1 <? length w)%nat && Qltb 0 (current_time - first_stamp w)
                    then mk (len w / (current_time - first_stamp w)) (sum_ft w / len w) w
                    else mk (led_fps self) (led_frame_time self) w) = w)
    by (destruct (_ && _); reflexivity).
  rewrite Hwin.
  assert (Hkept : List.Forall (fun p => fst p <= current_time)
                    (recent (current_time - 1) (led_frame_times self))).
  { apply List.Forall_forall. intros q Hq. apply List.filter_In in Hq.
    destruct Hq as [Hq _]. revert q Hq. now apply List.Forall_forall. }
  assert (Hw : StronglySorted (fun p q => fst p <= fst q) w).
  { unfold w. apply sorted_snoc; [now apply recent_sorted|exact Hkept]. }
  split; [exact Hw|].
  split.
  { unfold w. apply List.Forall_app. split; [exact Hkept|].
    repeat constructor. simpl. lra. }
  split; [unfold w, last_stamp; now rewrite List.last_last|].
  destruct w as [|a l]; [constructor|].
  apply StronglySorted_inv in Hw. destruct Hw as [_ Hall].
  unfold first_stamp. simpl. constructor; [lra|exact Hall].
Qed.

Lemma window_stays_chronological_witness :
  StronglySorted (fun p q => fst p <= fst q)
    (led_frame_times (record_led_frame (3 # 2) (1 # 4) (record_led_frame 1 (1 # 4) init))).
Proof.
  destruct (window_stays_chronological (3 # 2) (1 # 4) (record_led_frame 1 (1 # 4) init))
    as (H & _).
  - vm_compute. repeat constructor.
  - vm_compute. repeat constructor. discriminate.
  - exact H.
Defined.

End StatisticsMore.
